(** * neuland.app: API clients, data-derivation helpers and meal-plan logic

    A shallow embedding of
    - [lib/backend/authenticated-api.js] (session-authenticated THI client),
    - the GraphQL client (Neuland API),
    - the meal-plan page ([showMatch], [renderMealDay]) and
    - the dashboard events card,
    together with the properties stated about them. *)

From Stdlib Require Import ZArith String List Bool Ascii Lia DecimalString.
From stdpp Require Import gmap strings list.

Set Warnings "-register-all".

(** ** JavaScript values

    JSON-shaped values as the clients receive them.  Numbers are the
    integer-valued ones (status codes, counters); objects keep their
    properties in insertion order. *)

Inductive JSValue : Type :=
| JUndefined
| JNull
| JBool (b : bool)
| JNum (n : Z)
| JStr (s : string)
| JArr (elems : list JSValue)
| JObj (props : list (string * JSValue)).

(** What a [throw] carries.  Only [APIError] has a [data] property. *)
Inductive Exn : Type :=
| APIError (status data : JSValue)
| TypeError
| Error (message : string).

Inductive Outcome (A : Type) : Type :=
| Return (a : A)
| Throw (e : Exn).

Arguments Return {A} a.
Arguments Throw {A} e.

Definition bindO {A B} (o : Outcome A) (f : A -> Outcome B) : Outcome B :=
  match o with
  | Return a => f a
  | Throw e => Throw e
  end.

Notation "x <~ c1 ; c2" := (bindO c1 (fun x => c2))
  (at level 20, c1 at level 100, c2 at level 200, only parsing).

(** [ToBoolean]: the falsy values are undefined, null, false, 0 and the
    empty string. *)
Definition truthy (v : JSValue) : bool :=
  match v with
  | JUndefined | JNull => false
  | JBool b => b
  | JNum n => negb (n =? 0)%Z
  | JStr s => negb (String.eqb s EmptyString)
  | JArr _ | JObj _ => true
  end.

(** [a === b].  Primitives compare by value.  Arrays and objects compare by
    reference; every comparison in the embedded code has a primitive on one
    side or two values of distinct origin, hence [false]. *)
Definition strict_equals (a b : JSValue) : bool :=
  match a, b with
  | JUndefined, JUndefined => true
  | JNull, JNull => true
  | JBool x, JBool y => Bool.eqb x y
  | JNum x, JNum y => (x =? y)%Z
  | JStr x, JStr y => String.eqb x y
  | _, _ => false
  end.

Definition js_not (a : JSValue) : JSValue := JBool (negb (truthy a)).
Definition js_and (a b : JSValue) : JSValue := if truthy a then b else a.
Definition js_or (a b : JSValue) : JSValue := if truthy a then a else b.

Fixpoint obj_lookup (k : string) (props : list (string * JSValue)) : JSValue :=
  match props with
  | [] => JUndefined
  | (k', v) :: rest => if String.eqb k k' then v else obj_lookup k rest
  end.

Fixpoint obj_set (k : string) (v : JSValue) (props : list (string * JSValue))
  : list (string * JSValue) :=
  match props with
  | [] => [(k, v)]
  | (k', v') :: rest =>
      if String.eqb k k' then (k', v) :: rest else (k', v') :: obj_set k v rest
  end.

(** [{ ...base, ...extra }] *)
Definition obj_spread (base extra : list (string * JSValue))
  : list (string * JSValue) :=
  fold_left (fun acc kv => obj_set (fst kv) (snd kv) acc) extra base.

Definition index_key (i : nat) : string :=
  NilEmpty.string_of_uint (Nat.to_uint i).

(** [v.name] for an identifier [name] *)
Definition get_prop (v : JSValue) (name : string) : Outcome JSValue :=
  match v with
  | JUndefined | JNull => Throw TypeError
  | JObj props => Return (obj_lookup name props)
  | JArr elems =>
      Return (if String.eqb name "length"
              then JNum (Z.of_nat (length elems)) else JUndefined)
  | JStr s =>
      Return (if String.eqb name "length"
              then JNum (Z.of_nat (String.length s)) else JUndefined)
  | JBool _ | JNum _ => Return JUndefined
  end.

(** [v[i]] for a literal index [i] *)
Definition get_index (v : JSValue) (i : nat) : Outcome JSValue :=
  match v with
  | JUndefined | JNull => Throw TypeError
  | JArr elems => Return (nth i elems JUndefined)
  | JStr s =>
      Return (match String.get i s with
              | Some c => JStr (String c EmptyString)
              | None => JUndefined
              end)
  | JObj props => Return (obj_lookup (index_key i) props)
  | JBool _ | JNum _ => Return JUndefined
  end.

(** [Array.prototype.slice(start, end)] with its clamping of negative and
    out-of-range bounds. *)
Definition slice_bound (len i : Z) : Z :=
  if (i <? 0)%Z then Z.max (len + i) 0 else Z.min i len.

Definition slice {A} (start : Z) (stop : option Z) (l : list A) : list A :=
  let len := Z.of_nat (length l) in
  let k := slice_bound len start in
  let final := match stop with Some e => slice_bound len e | None => len end in
  take (Z.to_nat (final - k)) (drop (Z.to_nat k) l).

(** ** Effects: state passing with exceptions *)

Definition M (S A : Type) : Type := S -> Outcome A * S.

Definition ret {S A} (a : A) : M S A := fun s => (Return a, s).

Definition bindM {S A B} (m : M S A) (f : A -> M S B) : M S B :=
  fun s =>
    match m s with
    | (Return a, s') => f a s'
    | (Throw e, s') => (Throw e, s')
    end.

Notation "x <- c1 ; c2" := (bindM c1 (fun x => c2))
  (at level 20, c1 at level 100, c2 at level 200, only parsing).

Definition throw {S A} (e : Exn) : M S A := fun s => (Throw e, s).
Definition lift {S A} (o : Outcome A) : M S A := fun s => (o, s).

(** [try { body } catch (e) { handler e }] *)
Definition try_catch {S A} (body : M S A) (handler : Exn -> M S A) : M S A :=
  fun s =>
    match body s with
    | (Return a, s') => (Return a, s')
    | (Throw e, s') => handler e s'
    end.

(** [e.data] on a caught error *)
Definition exn_data (e : Exn) : JSValue :=
  match e with
  | APIError _ d => d
  | TypeError | Error _ => JUndefined
  end.

(** ** String helpers *)

(** [s.split(sep)] for a one-character separator *)
Fixpoint split_on (sep : ascii) (s : string) : list string :=
  match s with
  | EmptyString => [EmptyString]
  | String c rest =>
      match split_on sep rest with
      | [] => [String c EmptyString]
      | tok :: toks =>
          if Ascii.eqb c sep then EmptyString :: tok :: toks
          else String c tok :: toks
      end
  end.

Fixpoint is_prefix (p s : string) : bool :=
  match p, s with
  | EmptyString, _ => true
  | String a p', String b s' => Ascii.eqb a b && is_prefix p' s'
  | String _ _, EmptyString => false
  end.

(** [s.includes(sub)] on strings *)
Fixpoint str_includes (sub s : string) : bool :=
  is_prefix sub s ||
  match s with
  | EmptyString => false
  | String _ s' => str_includes sub s'
  end.

Definition slash : ascii := ascii_of_nat 47.

(** [v.split('/')]: only strings have a [split] method *)
Definition js_split (v : JSValue) : Outcome (list string) :=
  match v with
  | JStr s => Return (split_on slash s)
  | _ => Throw TypeError
  end.

Definition nonempty (x : string) : bool := (0 <? String.length x)%nat.

Definition head_or_undefined (l : list string) : JSValue :=
  match l with
  | [] => JUndefined
  | x :: _ => JStr x
  end.

(** [l.find(p)] with a predicate that may throw *)
Fixpoint find_m (p : string -> Outcome bool) (l : list string)
  : Outcome JSValue :=
  match l with
  | [] => Return JUndefined
  | x :: rest => b <~ p x ; if b then Return (JStr x) else find_m p rest
  end.

(** ** Data-derivation helpers of [authenticated-api.js] *)

Definition KEY_GET_PERSONAL_DATA : string := "getPersonalData".
Definition KEY_GET_TIMETABLE : string := "getTimetable".
Definition KEY_GET_EXAMS : string := "getExams".
Definition KEY_GET_GRADES : string := "getGrades".
Definition KEY_GET_MENSA_PLAN : string := "getMensaPlan".
Definition KEY_GET_FREE_ROOMS : string := "getFreeRooms".
Definition KEY_GET_PARKING_DATA : string := "getCampusParkingData".
Definition KEY_GET_PERSONAL_LECTURERS : string := "getPersonalLecturers".
Definition KEY_GET_LECTURERS : string := "getLecturers".

(** A value of the table [data/course-short-names.json]: the [_source]
    note, or a faculty with its PO-URL key and course short names. *)
Inductive TableValue : Type :=
| SourceNote (url : string)
| Faculty (poKey : string) (courses : list string).

(** [entry.poKey] *)
Definition entry_poKey (entry : option TableValue) : Outcome JSValue :=
  match entry with
  | None => Throw TypeError
  | Some (SourceNote _) => Return JUndefined
  | Some (Faculty k _) => Return (JStr k)
  end.

(** [entry.courses.includes(shortName)] *)
Definition entry_courses_includes (entry : option TableValue)
    (shortName : JSValue) : Outcome bool :=
  match entry with
  | None | Some (SourceNote _) => Throw TypeError
  | Some (Faculty _ cs) =>
      Return (existsb (fun c => strict_equals (JStr c) shortName) cs)
  end.

Fixpoint table_get (t : list (string * TableValue)) (k : string)
  : option TableValue :=
  match t with
  | [] => None
  | (k', v) :: rest => if String.eqb k k' then Some v else table_get rest k
  end.

Section FacultyExtraction.

(** The imported table, as its entries in key order. *)
Variable courseShortNames : list (string * TableValue).

Definition not_source (key : string) : bool :=
  negb (String.eqb key "_source").

Definition extractFacultyFromPersonalData (data : JSValue)
  : Outcome JSValue :=
  if negb (truthy data) then Return JNull else
  persdata <~ get_prop data "persdata" ;
  if negb (truthy persdata) then Return JNull else
  stg <~ get_prop persdata "stg" ;
  po_url <~ get_prop persdata "po_url" ;
  if negb (truthy stg) && negb (truthy po_url) then Return JNull else
  let faculties := filter (fun key => not_source key = true)
                          (map fst courseShortNames) in
  parts <~ js_split po_url ;
  let poKey :=
    head_or_undefined (slice (-3) None (filter (fun x => nonempty x = true) parts)) in
  facultyMatch <~
    find_m (fun faculty =>
              k <~ entry_poKey (table_get courseShortNames faculty) ;
              Return (strict_equals k poKey))
           (filter (fun key => not_source key = true) faculties) ;
  if truthy facultyMatch then Return facultyMatch else
  let shortName := stg in
  find_m (fun faculty =>
            entry_courses_includes (table_get courseShortNames faculty)
                                   shortName)
         faculties.

End FacultyExtraction.

Definition last_or_undefined (l : list string) : JSValue :=
  match last l with
  | None => JUndefined
  | Some x => JStr x
  end.

Definition extractSpoFromPersonalData (data : JSValue) : Outcome JSValue :=
  if negb (truthy data) then Return JNull else
  persdata <~ get_prop data "persdata" ;
  if negb (truthy persdata) then Return JNull else
  po_url <~ get_prop persdata "po_url" ;
  if negb (truthy po_url) then Return JNull else
  parts <~ js_split po_url ;
  Return (last_or_undefined (filter (fun x => nonempty x = true) parts)).

(** What the callback of [requestAuthenticated] makes of a delivered
    response, as one expression. *)
Definition normalized (res : JSValue) : Outcome JSValue :=
  status <~ get_prop res "status" ;
  data <~ get_prop res "data" ;
  if strict_equals status (JNum 0) then
    d0 <~ get_index data 0 ;
    d1 <~ get_index data 1 ;
    if strict_equals d0 (JNum 0) then Return d1 else Throw (APIError d0 d1)
  else Throw (APIError status data).

(** ** Session-authenticated API client *)

(** Modelled from the spec: the response cache [this.cache], created by the
    parent class [AnonymousAPIClient] whose source is not part of this
    development.  The spec describes it as a flat in-memory key/value store
    keyed by string, unbounded, session-scoped and without expiry: [get]
    yields the stored value or [undefined], [set] stores under the key. *)
Definition cache_lookup (c : gmap string JSValue) (k : string) : JSValue :=
  default JUndefined (c !! k).

Definition cache_store (k : string) (v : JSValue) (c : gmap string JSValue)
  : gmap string JSValue :=
  <[k := v]> c.

Record ClientState (World : Type) : Type := mkClient {
  cache : gmap string JSValue;
  (** everything outside the client object: network, session storage *)
  world : World;
  (** instrumentation: parameters of the authenticated requests started *)
  authLog : list (list (string * JSValue))
}.

Arguments mkClient {World} _ _ _.
Arguments cache {World} _.
Arguments world {World} _.
Arguments authLog {World} _.

Definition cache_get {World} (k : string) : M (ClientState World) JSValue :=
  fun st => (Return (cache_lookup (cache st) k), st).

Definition cache_set {World} (k : string) (v : JSValue)
  : M (ClientState World) unit :=
  fun st =>
    (Return tt, mkClient (cache_store k v (cache st)) (world st) (authLog st)).

(** Runs an action of the outside world inside the client. *)
Definition in_world {World A} (m : M World A) : M (ClientState World) A :=
  fun st =>
    let (r, w') := m (world st) in
    (r, mkClient (cache st) w' (authLog st)).

Definition log_auth {World} (params : list (string * JSValue))
  : M (ClientState World) unit :=
  fun st =>
    (Return tt, mkClient (cache st) (world st) (authLog st ++ [params])).

Definition bool_str (b : bool) : string := if b then "true" else "false".

Section Client.

Context {World : Type}.

(** [AnonymousAPIClient.request] (the remote procedure call facility) and
    [callWithSession] are imported by the client; they act on the outside
    world only. *)
Variable request : JSValue -> M World JSValue.
Variable sessionHandler : (JSValue -> M World JSValue) -> M World JSValue.

Variable courseShortNames : list (string * TableValue).

(** The runtime's [Date] objects with the four methods the client calls. *)
Context {Date : Type}.
Variable toDateString : Date -> string.
Variables getDate getMonth getFullYear : Date -> Z.

(** The async function handed to the session handler by
    [requestAuthenticated]. *)
Definition requestAuthenticated_callback
    (params : list (string * JSValue)) (session : JSValue)
  : M World JSValue :=
  res <- request (JObj (obj_spread [("session", session)] params)) ;
  status <- lift (get_prop res "status") ;
  (* old status format *)
  if negb (strict_equals status (JNum 0)) then
    data <- lift (get_prop res "data") ;
    throw (APIError status data)
  else
    (* new status format *)
    data <- lift (get_prop res "data") ;
    d0 <- lift (get_index data 0) ;
    if negb (strict_equals d0 (JNum 0)) then
      d1 <- lift (get_index data 1) ;
      throw (APIError d0 d1)
    else
      lift (get_index data 1).

Definition requestAuthenticated (params : list (string * JSValue))
  : M (ClientState World) JSValue :=
  _ <- log_auth params ;
  in_world (sessionHandler (requestAuthenticated_callback params)).

Definition requestCached (cacheKey : string)
    (params : list (string * JSValue)) : M (ClientState World) JSValue :=
  cached <- cache_get cacheKey ;
  if truthy cached then ret cached
  else
    resp <- requestAuthenticated params ;
    _ <- cache_set cacheKey resp ;
    ret resp.

Definition getPersonalData : M (ClientState World) JSValue :=
  requestCached KEY_GET_PERSONAL_DATA
    [("service", JStr "thiapp"); ("method", JStr "persdata");
     ("format", JStr "json")].

Definition getFaculty : M (ClientState World) JSValue :=
  data <- getPersonalData ;
  lift (extractFacultyFromPersonalData courseShortNames data).

Definition getSpoName : M (ClientState World) JSValue :=
  data <- getPersonalData ;
  lift (extractSpoFromPersonalData data).

Definition timetable_key (date : Date) (detailed : bool) : string :=
  KEY_GET_TIMETABLE +:+ "-" +:+ toDateString date +:+ "-"
    +:+ bool_str detailed.

Definition timetable_params (date : Date) (detailed : bool)
  : list (string * JSValue) :=
  [("service", JStr "thiapp"); ("method", JStr "stpl");
   ("format", JStr "json"); ("day", JNum (getDate date));
   ("month", JNum (getMonth date + 1)); ("year", JNum (getFullYear date));
   ("details", JNum (if detailed then 1 else 0))].

(** The [try] block of [getTimetable]. *)
Definition getTimetable_try (date : Date) (detailed : bool)
  : M (ClientState World) JSValue :=
  res <- requestCached (timetable_key date detailed)
                       (timetable_params date detailed) ;
  semester <- lift (get_index res 0) ;
  holidays <- lift (get_index res 1) ;
  timetable <- lift (get_index res 2) ;
  ret (JObj [("semester", semester); ("holidays", holidays);
             ("timetable", timetable)]).

Definition getTimetable (date : Date) (detailed : bool)
  : M (ClientState World) JSValue :=
  try_catch (getTimetable_try date detailed)
    (fun e =>
       if strict_equals (exn_data e) (JStr "Query not possible")
          || strict_equals (exn_data e) (JStr "Time table does not exist")
       then ret (JObj [("timetable", JArr [])])
       else throw e).

Definition exams_params : list (string * JSValue) :=
  [("service", JStr "thiapp"); ("method", JStr "exams");
   ("format", JStr "json"); ("modus", JStr "1")].

(** The [try] block of [getExams]. *)
Definition getExams_try : M (ClientState World) JSValue :=
  requestCached KEY_GET_EXAMS exams_params.

Definition getExams : M (ClientState World) JSValue :=
  try_catch getExams_try
    (fun e =>
       if strict_equals (exn_data e) (JStr "No exam data available")
          || strict_equals (exn_data e) (JStr "Query not possible")
       then ret (JArr [])
       else throw e).

Definition getGrades : M (ClientState World) JSValue :=
  requestCached KEY_GET_GRADES
    [("service", JStr "thiapp"); ("method", JStr "grades");
     ("format", JStr "json")].

Definition getMensaPlan : M (ClientState World) JSValue :=
  requestCached KEY_GET_MENSA_PLAN
    [("service", JStr "thiapp"); ("method", JStr "mensa");
     ("format", JStr "json")].

Definition getFreeRooms (date : Date) : M (ClientState World) JSValue :=
  requestCached (KEY_GET_FREE_ROOMS +:+ "-" +:+ toDateString date)
    [("service", JStr "thiapp"); ("method", JStr "rooms");
     ("format", JStr "json"); ("day", JNum (getDate date));
     ("month", JNum (getMonth date + 1)); ("year", JNum (getFullYear date))].

Definition getCampusParkingData : M (ClientState World) JSValue :=
  requestCached KEY_GET_PARKING_DATA
    [("service", JStr "thiapp"); ("method", JStr "parking");
     ("format", JStr "json")].

Definition getPersonalLecturers : M (ClientState World) JSValue :=
  requestCached KEY_GET_PERSONAL_LECTURERS
    [("service", JStr "thiapp"); ("method", JStr "stpllecturers");
     ("format", JStr "json")].

Definition getLecturers (from to : string) : M (ClientState World) JSValue :=
  requestCached (KEY_GET_LECTURERS +:+ "-" +:+ from +:+ "-" +:+ to)
    [("service", JStr "thiapp"); ("method", JStr "lecturers");
     ("format", JStr "json"); ("from", JStr from); ("to", JStr to)].

Definition getImprint : M (ClientState World) JSValue :=
  requestAuthenticated
    [("service", JStr "thiapp"); ("method", JStr "impressum");
     ("format", JStr "json")].

(** The operations a caller can invoke on the client. *)
Inductive ClientOp : Type :=
| OpRequestAuthenticated (params : list (string * JSValue))
| OpRequestCached (cacheKey : string) (params : list (string * JSValue))
| OpGetPersonalData
| OpGetFaculty
| OpGetSpoName
| OpGetTimetable (date : Date) (detailed : bool)
| OpGetExams
| OpGetGrades
| OpGetMensaPlan
| OpGetFreeRooms (date : Date)
| OpGetCampusParkingData
| OpGetPersonalLecturers
| OpGetLecturers (from to : string)
| OpGetImprint.

Definition run_op (op : ClientOp) : M (ClientState World) JSValue :=
  match op with
  | OpRequestAuthenticated params => requestAuthenticated params
  | OpRequestCached cacheKey params => requestCached cacheKey params
  | OpGetPersonalData => getPersonalData
  | OpGetFaculty => getFaculty
  | OpGetSpoName => getSpoName
  | OpGetTimetable date detailed => getTimetable date detailed
  | OpGetExams => getExams
  | OpGetGrades => getGrades
  | OpGetMensaPlan => getMensaPlan
  | OpGetFreeRooms date => getFreeRooms date
  | OpGetCampusParkingData => getCampusParkingData
  | OpGetPersonalLecturers => getPersonalLecturers
  | OpGetLecturers from to => getLecturers from to
  | OpGetImprint => getImprint
  end.

End Client.

(** ** Meal-plan page *)

Record Meal : Type := mkMeal {
  id : string;
  restaurant : string;
  category : string;
  allergens : JSValue;
  flags : JSValue
}.

Record FoodDay : Type := mkFoodDay {
  timestamp : string;
  meals : list Meal
}.

(** One [<h5>] with its [ListGroup]: each entry is a call
    [renderMealEntry(meal, key)]. *)
Record MealList : Type := mkMealList {
  kindHeader : string;
  entries : list (Meal * string)
}.

(** The children of the [SwipeableTab] of one day. *)
Inductive DayBlock : Type :=
| RestaurantBlock (restaurantHeader : string) (lists : list MealList)
| NoMealInfo (message : string).

(** [{cond && node}] in JSX *)
Definition when {A} (cond : bool) (node : A) : list A :=
  if cond then [node] else [].

Definition has_items {A} (l : list A) : bool := (0 <? length l)%nat.

Definition keyed (prefix : string) (l : list Meal) : list (Meal * string) :=
  imap (fun idx meal => (meal, prefix +:+ index_key idx)) l.

Section MealPlan.

(** [containsSelectedAllergen] and [containsSelectedPreference] are imported
    from [lib/food-utils]; the selections come from the food-filter
    provider; [t] is the translation lookup. *)
Variable containsSelectedAllergen : JSValue -> JSValue -> JSValue.
Variable containsSelectedPreference : JSValue -> JSValue -> JSValue.
Variables allergenSelection preferencesSelection : JSValue.
Variable t : string -> string.

Definition showMatch (meal : Meal) : JSValue :=
  js_or
    (js_and (js_not (containsSelectedAllergen (allergens meal) allergenSelection))
            (containsSelectedPreference (flags meal) preferencesSelection))
    (containsSelectedAllergen (allergens meal) allergenSelection).

Definition is_restaurant (name : string) (x : Meal) : bool :=
  String.eqb (restaurant x) name.

Definition category_includes (kind : string) (x : Meal) : bool :=
  str_includes kind (category x).

Definition renderMealDay (day : FoodDay) : list DayBlock :=
  let mensa := filter (fun x => is_restaurant "IngolstadtMensa" x = true) (meals day) in
  let mensaSoups := filter (fun x => category_includes "soup" x = true) mensa in
  let mensaFood := filter (fun x => negb (category_includes "soup" x) = true) mensa in

  let neuburg := filter (fun x => is_restaurant "NeuburgMensa" x = true) (meals day) in
  let neuburgFood := filter (fun x => negb (category_includes "soup" x) = true) neuburg in

  let reimanns := filter (fun x => is_restaurant "Reimanns" x = true) (meals day) in
  let reimannsFood := filter (fun x => negb (category_includes "salad" x) = true) reimanns in
  let reimannsSalad := filter (fun x => category_includes "salad" x = true) reimanns in

  let canisius := filter (fun x => is_restaurant "Canisius" x = true) (meals day) in
  let canisiusSalads := filter (fun x => category_includes "salad" x = true) canisius in
  let canisiusFood := filter (fun x => negb (category_includes "salad" x) = true) canisius in

  let noData :=
    (length mensa =? 0)%nat && (length reimanns =? 0)%nat
    && (length canisius =? 0)%nat && (length neuburg =? 0)%nat in

  when (has_items mensa)
    (RestaurantBlock (t "list.titles.cafeteria")
       (when (has_items mensaFood)
          (mkMealList (t "list.titles.meals") (keyed "mensa-food-" mensaFood))
        ++ when (has_items mensaSoups)
          (mkMealList (t "list.titles.soups") (keyed "mensa-soup-" mensaSoups))))
  ++ when (has_items neuburg)
    (RestaurantBlock (t "list.titles.neuburg")
       (when (has_items neuburgFood)
          (mkMealList (t "list.titles.meals") (keyed "mensa-food-" neuburgFood))))
  ++ when (has_items reimanns)
    (RestaurantBlock "Reimanns"
       (when (has_items reimannsFood)
          (mkMealList (t "list.titles.meals") (keyed "reimanns-food-" reimannsFood))
        ++ when (has_items reimannsSalad)
          (mkMealList (t "list.titles.salads") (keyed "reimanns-salad-" reimannsSalad))))
  ++ when (has_items canisius)
    (RestaurantBlock "Canisiuskonvikt"
       (when (has_items canisiusFood)
          (mkMealList (t "list.titles.meals") (keyed "canisius-food-" canisiusFood))
        ++ when (has_items canisiusSalads)
          (mkMealList (t "list.titles.salads") (keyed "canisius-salad-" canisiusSalads))))
  ++ when noData (NoMealInfo (t "error.dataUnavailable")).

End MealPlan.

(** The meals of every rendered sub-list, and whether the no-data message
    is part of the output. *)
Definition block_lists (b : DayBlock) : list (list Meal) :=
  match b with
  | RestaurantBlock _ lists => map (fun l => map fst (entries l)) lists
  | NoMealInfo _ => []
  end.

Definition rendered_lists (view : list DayBlock) : list (list Meal) :=
  concat (map block_lists view).

Definition is_no_data (b : DayBlock) : bool :=
  match b with
  | NoMealInfo _ => true
  | RestaurantBlock _ _ => false
  end.

Definition shows_no_data (view : list DayBlock) : bool :=
  existsb is_no_data view.

(** ** Dashboard card for CL events *)

Record CLEvent : Type := mkCLEvent {
  event_id : string;
  organizer : string;
  title : string;
  event_begin : string;
  event_end : string
}.

(** One [ListGroup.Item]: its key, the title line and the organizer line. *)
Record EventItem : Type := mkEventItem {
  item_key : nat;
  item_title : string;
  item_organizer : string
}.

Section EventsCard.

Variable t : string -> string.

(** The effect's [load]: [setCalendar(events.clEvents)] when the query
    succeeds; a failure is only logged and the state kept. *)
Definition load (events : Outcome (list CLEvent)) (calendar : list CLEvent)
  : list CLEvent :=
  match events with
  | Return clEvents => clEvents
  | Throw _ => calendar
  end.

Definition EventsCard (calendar : list CLEvent) : list EventItem :=
  imap (fun i x =>
          mkEventItem i (title x)
            (t "events.organizer.attribute" +:+ " " +:+ organizer x))
       (slice 0 (Some 2%Z) calendar).

End EventsCard.

(** ** GraphQL client *)

Definition dquote : string := String (ascii_of_nat 34) EmptyString.

(** The [gql] template tag: the chunks of the literal interleaved with the
    interpolated values. *)
Fixpoint gql (chunks values : list string) : string :=
  match chunks with
  | [] => EmptyString
  | chunk :: chunks' =>
      match values with
      | [] => chunk +:+ gql chunks' []
      | v :: values' => chunk +:+ v +:+ gql chunks' values'
      end
  end.

Record GraphQLState (Net : Type) : Type := mkGraphQL {
  net : Net;
  (** instrumentation: endpoint and document of every request attempt *)
  attempts : list (string * string)
}.

Arguments mkGraphQL {Net} _ _.
Arguments net {Net} _.
Arguments attempts {Net} _.

Section NeulandAPIClient.

Context {Net : Type}.

(** [request] of the [graphql-request] package, acting on the network. *)
Variable request : string -> string -> M Net JSValue.

(** [process.env.NEXT_PUBLIC_NEULAND_GRAPHQL_ENDPOINT] *)
Variable env_endpoint : option string.

Definition GRAPHQL_ENDPOINT : string :=
  match env_endpoint with
  | Some url => if String.eqb url EmptyString
                then "https://api.neuland.app/graphql" else url
  | None => "https://api.neuland.app/graphql"
  end.

(** One call of the imported [request]. *)
Definition graphql_request (endpoint query : string)
  : M (GraphQLState Net) JSValue :=
  fun st =>
    let (r, n') := request endpoint query (net st) in
    (r, mkGraphQL n' (attempts st ++ [(endpoint, query)])).

Definition performGraphQLQuery (query : string)
  : M (GraphQLState Net) JSValue :=
  try_catch
    (data <- graphql_request GRAPHQL_ENDPOINT query ;
     ret data)
    (fun e => throw (Error "GraphQL query failed")).

Definition getFoodPlan_query (locations : list string) : string :=
    gql ["
            query {
                food(locations: [";
         "]) {
                    timestamp
    meals {
      name {
        de
        en
      }
      id
      category
      prices {
        student
        employee
        guest
      }
      allergens
      flags
      nutrition {
        kj
        kcal
        fat
        fatSaturated
        carbs
        sugar
        fiber
        protein
        salt
      }
      variants {
        additional
        id
        allergens
        flags
        originalLanguage
        static
        restaurant
        parent {
          id
          category
        }
        name {
          de
          en
        }
        prices {
          student
          employee
          guest
        }
        nutrition {
          kj
          kcal
          fat
          fatSaturated
          carbs
          sugar
          fiber
          protein
          salt
        }
      }
      originalLanguage
      static
      restaurant
      
    }
                }

            }
        "]
        [String.concat "," (map (fun x => dquote +:+ x +:+ dquote) locations)].

Definition getBusPlan_query (station : string) : string :=
    gql ["
      query {
        bus(station: " +:+ dquote;
         dquote +:+ ") {
          route
          destination
          time
        }
      }
    "]
        [station].

Definition getTrainPlan_query (station : string) : string :=
    gql ["
      query {
        train(station: " +:+ dquote;
         dquote +:+ ") {
           name
    destination
    plannedTime
    actualTime
    canceled
    track
        }
      }
    "]
        [station].

Definition getParkingData_query : string :=
    gql ["
      query {
        parking {
          lots {
            name
            available
            total
            priceLevel
          }
        }
      }
    "] [].

Definition getCharingStationData_query : string :=
    gql ["
      query {
        charging {
          id
          name
          available
          total
        }
      }
    "] [].

Definition getCampusLifeEvents_query : string :=
    gql ["
      query {
        clEvents {
          id
          organizer
          title
          begin
          end
        }
      }
    "] [].

Definition getFoodPlan (locations : list string) :=
  performGraphQLQuery (getFoodPlan_query locations).
Definition getBusPlan (station : string) :=
  performGraphQLQuery (getBusPlan_query station).
Definition getTrainPlan (station : string) :=
  performGraphQLQuery (getTrainPlan_query station).
Definition getParkingData := performGraphQLQuery getParkingData_query.
Definition getCharingStationData :=
  performGraphQLQuery getCharingStationData_query.
Definition getCampusLifeEvents :=
  performGraphQLQuery getCampusLifeEvents_query.

(** The query methods of the client. *)
Inductive QueryCall : Type :=
| CallFoodPlan (locations : list string)
| CallBusPlan (station : string)
| CallTrainPlan (station : string)
| CallParkingData
| CallCharingStationData
| CallCampusLifeEvents.

Definition query_of (c : QueryCall) : string :=
  match c with
  | CallFoodPlan locations => getFoodPlan_query locations
  | CallBusPlan station => getBusPlan_query station
  | CallTrainPlan station => getTrainPlan_query station
  | CallParkingData => getParkingData_query
  | CallCharingStationData => getCharingStationData_query
  | CallCampusLifeEvents => getCampusLifeEvents_query
  end.

Definition run_query (c : QueryCall) : M (GraphQLState Net) JSValue :=
  match c with
  | CallFoodPlan locations => getFoodPlan locations
  | CallBusPlan station => getBusPlan station
  | CallTrainPlan station => getTrainPlan station
  | CallParkingData => getParkingData
  | CallCharingStationData => getCharingStationData
  | CallCampusLifeEvents => getCampusLifeEvents
  end.

End NeulandAPIClient.

(** ** Concrete worlds used to run the clients *)

(** A backend that answers from a script: each request consumes the next
    scripted answer; an exhausted script is a network failure. *)
Definition scripted_request (_ : JSValue) : M (list (Outcome JSValue)) JSValue :=
  fun script =>
    match script with
    | answer :: rest => (answer, rest)
    | [] => (Throw (Error "Failed to fetch"), [])
    end.

(** A session handler with a live session: it calls the method once. *)
Definition direct_session {World} (method : JSValue -> M World JSValue)
  : M World JSValue :=
  method (JStr "session-token").

Definition ok_response (payload : JSValue) : Outcome JSValue :=
  Return (JObj [("status", JNum 0); ("data", JArr [JNum 0; payload])]).

Definition new_error_response (code : Z) (message : string) : Outcome JSValue :=
  Return (JObj [("status", JNum 0); ("data", JArr [JNum code; JStr message])]).

Definition old_error_response (code : Z) (message : string) : Outcome JSValue :=
  Return (JObj [("status", JNum code); ("data", JStr message)]).

Definition fresh_client {World} (w : World) : ClientState World :=
  mkClient ∅ w [].

(** A script whose first successful payload is the number [0] and whose
    second is [7]. *)
Definition zero_then_seven : ClientState (list (Outcome JSValue)) :=
  fresh_client [ok_response (JNum 0); ok_response (JNum 7)].

(** The state [zero_then_seven] after one cached request under key ["k"]. *)
Definition after_zero : ClientState (list (Outcome JSValue)) :=
  snd (requestCached scripted_request direct_session "k" [] zero_then_seven).

(** A fixed calendar day for running the date-keyed methods:
    Monday, 2 November 2026. *)
Definition a_monday_toDateString (_ : unit) : string := "Mon Nov 02 2026".
Definition a_monday_getDate (_ : unit) : Z := 2.
Definition a_monday_getMonth (_ : unit) : Z := 10.
Definition a_monday_getFullYear (_ : unit) : Z := 2026.

(** A small course table in the shape of [course-short-names.json]. *)
Definition sample_table : list (string * TableValue) :=
  [("_source", SourceNote "https://www.thi.de/");
   ("Informatik", Faculty "informatik" ["INF"; "AI"]);
   ("Maschinenbau", Faculty "maschinenbau" ["MB"])].

Definition personal_data (stg po_url : JSValue) : JSValue :=
  JObj [("persdata", JObj [("stg", stg); ("po_url", po_url)])].

(** A personal-data payload that names the course of study but carries no
    PO URL: [{ persdata: { stg: 'INF' } }]. *)
Definition stg_only_payload : JSValue :=
  JObj [("persdata", JObj [("stg", JStr "INF")])].

(** A day whose only meal is a soup of the Neuburg cafeteria. *)
Definition neuburg_soup : Meal :=
  mkMeal "42" "NeuburgMensa" "soup" (JArr []) (JArr []).

Definition neuburg_soup_day : FoodDay :=
  mkFoodDay "2026-11-02" [neuburg_soup].

(** ** Vocabulary of the faculty-extraction properties *)

(** Every entry of the table other than the [_source] note is a faculty. *)
Definition faculties_only (table : list (string * TableValue)) : Prop :=
  forall k v, (k, v) ∈ table -> k <> "_source" ->
    exists poKey courses, v = Faculty poKey courses.

(** A faculty name of the table, or nothing. *)
Definition faculty_or_undefined (table : list (string * TableValue))
    (v : JSValue) : Prop :=
  v = JUndefined \/ exists key, v = JStr key /\ key ∈ map fst table.

(** ** Vocabulary of the meal-plan properties *)

(** A sub-list of the day view is selected by a restaurant, a category
    word and whether the category has to contain that word. *)
Definition selects (r kind : string) (want : bool) (m : Meal) : bool :=
  String.eqb (restaurant m) r
  && Bool.eqb (str_includes kind (category m)) want.

Definition sublist_of (r kind : string) (want : bool) (day : FoodDay)
  : list Meal :=
  filter (fun m => selects r kind want m = true) (meals day).

(** The selectors of the seven sub-lists, in rendering order. *)
Definition selectors : list (string * string * bool) :=
  [("IngolstadtMensa", "soup", false); ("IngolstadtMensa", "soup", true);
   ("NeuburgMensa", "soup", false);
   ("Reimanns", "salad", false); ("Reimanns", "salad", true);
   ("Canisius", "salad", false); ("Canisius", "salad", true)].

Definition sublists (day : FoodDay) : list (list Meal) :=
  map (fun s => sublist_of (fst (fst s)) (snd (fst s)) (snd s) day) selectors.

(** In how many sub-lists a meal is placed. *)
Definition placements (m : Meal) : nat :=
  length (filter (fun s => selects (fst (fst s)) (snd (fst s)) (snd s) m = true)
                 selectors).

Definition four_restaurants : list string :=
  ["IngolstadtMensa"; "NeuburgMensa"; "Reimanns"; "Canisius"].

(** A backend for the GraphQL client that always fails. *)
Definition failing_graphql (_ _ : string) : M unit JSValue :=
  fun n => (Throw (Error "Network request failed"), n).

(** ** Vocabulary of the cache properties *)

(** [c'] keeps every key of [c], and keeps the value of every key whose
    value is truthy. *)
Definition cache_extends (c c' : gmap string JSValue) : Prop :=
  forall k v, c !! k = Some v ->
    is_Some (c' !! k) /\ (truthy v = true -> c' !! k = Some v).

Definition keeps_cache {World A} (m : M (ClientState World) A) : Prop :=
  forall st, cache_extends (cache st) (cache (snd (m st))).

(** ** Further vocabulary and page logic *)

(** The PO-URL key the faculty helper reads from a URL: the first of the
    last three non-empty path segments. *)
Definition po_key_of (url : string) : JSValue :=
  head_or_undefined
    (slice (-3) None (filter (fun x => nonempty x = true) (split_on slash url))).

(** The cache key under which an operation of the client stores its
    response; [getImprint] and [requestAuthenticated] store nothing. *)
Definition method_key {Date : Type} (toDateString : Date -> string)
    (op : @ClientOp Date) : option string :=
  match op with
  | OpRequestAuthenticated _ | OpGetImprint => None
  | OpRequestCached cacheKey _ => Some cacheKey
  | OpGetPersonalData | OpGetFaculty | OpGetSpoName =>
      Some KEY_GET_PERSONAL_DATA
  | OpGetTimetable date detailed =>
      Some (timetable_key toDateString date detailed)
  | OpGetExams => Some KEY_GET_EXAMS
  | OpGetGrades => Some KEY_GET_GRADES
  | OpGetMensaPlan => Some KEY_GET_MENSA_PLAN
  | OpGetFreeRooms date =>
      Some (KEY_GET_FREE_ROOMS +:+ "-" +:+ toDateString date)
  | OpGetCampusParkingData => Some KEY_GET_PARKING_DATA
  | OpGetPersonalLecturers => Some KEY_GET_PERSONAL_LECTURERS
  | OpGetLecturers from to =>
      Some (KEY_GET_LECTURERS +:+ "-" +:+ from +:+ "-" +:+ to)
  end.

(** Which method an operation is, regardless of its arguments. *)
Definition method_name {Date : Type} (op : @ClientOp Date) : string :=
  match op with
  | OpRequestAuthenticated _ => "requestAuthenticated"
  | OpRequestCached _ _ => "requestCached"
  | OpGetPersonalData => "getPersonalData"
  | OpGetFaculty => "getFaculty"
  | OpGetSpoName => "getSpoName"
  | OpGetTimetable _ _ => "getTimetable"
  | OpGetExams => "getExams"
  | OpGetGrades => "getGrades"
  | OpGetMensaPlan => "getMensaPlan"
  | OpGetFreeRooms _ => "getFreeRooms"
  | OpGetCampusParkingData => "getCampusParkingData"
  | OpGetPersonalLecturers => "getPersonalLecturers"
  | OpGetLecturers _ _ => "getLecturers"
  | OpGetImprint => "getImprint"
  end.

(** The three methods that go through [getPersonalData]. *)
Definition reads_personal_data {Date : Type} (op : @ClientOp Date) : bool :=
  match op with
  | OpGetPersonalData | OpGetFaculty | OpGetSpoName => true
  | _ => false
  end.

(** The two generic entry points, which take their parameters (and key)
    from the caller. *)
Definition is_generic {Date : Type} (op : @ClientOp Date) : bool :=
  match op with
  | OpRequestAuthenticated _ | OpRequestCached _ _ => true
  | _ => false
  end.

(** An action that leaves the client state alone. *)
Definition stateless {World A} (m : M (ClientState World) A) : Prop :=
  forall st, snd (m st) = st.

(** Whether the day view has a sub-list for the meal. *)
Definition listed (m : Meal) : bool :=
  is_restaurant "IngolstadtMensa" m
  || (is_restaurant "NeuburgMensa" m && negb (category_includes "soup" m))
  || is_restaurant "Reimanns" m
  || is_restaurant "Canisius" m.

(** The state of the meal-plan page. *)
Record MensaState : Type := mkMensaState {
  currentFoodDays : option (list FoodDay);
  futureFoodDays : option (list FoodDay);
  currentDay : Z;
  futureDay : Z;
  week : Z
}.

(** The effect's [load] of the meal-plan page, given what [loadFoodEntries]
    delivered and the weekday number [getAdjustedDay(new Date()).getDay()]:
    the first five days become the current week, the rest the next week;
    a failure is only logged. *)
Definition Mensa_load (days : Outcome (list FoodDay)) (adjustedWeekday : Z)
    (s : MensaState) : MensaState :=
  match days with
  | Return days =>
      mkMensaState
        (Some (slice 0 (Some 5%Z) days))
        (Some (slice 5 (Some (Z.of_nat (length days))) days))
        (adjustedWeekday - 1)
        (futureDay s) (week s)
  | Throw _ => s
  end.

(** The conditional children of the indicator of a meal entry. *)
Inductive IndicatorNode : Type :=
| WarnBadge (text : string)
| MatchBadge (text : string)
| LineBreak
| NumberText (n : Z).

(** [{v && node}] in JSX: the node when [v] is truthy; a falsy number is
    printed, every other falsy value renders nothing. *)
Definition jsx_and (v : JSValue) (node : IndicatorNode) : list IndicatorNode :=
  if truthy v then [node]
  else match v with
       | JNum n => [NumberText n]
       | _ => []
       end.

Section MealEntry.

Variable containsSelectedAllergen : JSValue -> JSValue -> JSValue.
Variable containsSelectedPreference : JSValue -> JSValue -> JSValue.
Variables allergenSelection preferencesSelection : JSValue.
Variable t : string -> string.

(** The badges and the line break of [renderMealEntry]. *)
Definition mealBadges (meal : Meal) : list IndicatorNode :=
  jsx_and (containsSelectedAllergen (allergens meal) allergenSelection)
          (WarnBadge (t "preferences.warn"))
  ++ jsx_and
       (js_and
          (js_not (containsSelectedAllergen (allergens meal) allergenSelection))
          (containsSelectedPreference (flags meal) preferencesSelection))
       (MatchBadge (t "preferences.match"))
  ++ jsx_and
       (showMatch containsSelectedAllergen containsSelectedPreference
                  allergenSelection preferencesSelection meal)
       LineBreak.

End MealEntry.

Definition is_warn (n : IndicatorNode) : bool :=
  match n with
  | WarnBadge _ => true
  | _ => false
  end.

Definition is_match (n : IndicatorNode) : bool :=
  match n with
  | MatchBadge _ => true
  | _ => false
  end.

Definition is_badge (n : IndicatorNode) : bool := is_warn n || is_match n.

Definition badge_count (nodes : list IndicatorNode) : nat :=
  length (List.filter is_badge nodes).

Definition is_line_break (n : IndicatorNode) : bool :=
  match n with
  | LineBreak => true
  | _ => false
  end.

(** The state of the GraphQL client after a sequence of query calls. *)
Definition run_queries {Net : Type} (request : string -> string -> M Net JSValue)
    (env_endpoint : option string) (calls : list QueryCall)
    (st : GraphQLState Net) : GraphQLState Net :=
  fold_left (fun s c => snd (run_query request env_endpoint c s)) calls st.

(** The sub-lists of a block of the day view, with their keys. *)
Definition block_meal_lists (b : DayBlock) : list MealList :=
  match b with
  | RestaurantBlock _ lists => lists
  | NoMealInfo _ => []
  end.

(** Payloads and a state for running the extracted helpers. *)
Definition cached_exams : ClientState (list (Outcome JSValue)) :=
  mkClient {[ KEY_GET_EXAMS := JArr [JStr "Mathematik 1"] ]}
           [ok_response (JNum 7)] [].

Definition other_restaurant_day : FoodDay :=
  mkFoodDay "2026-11-03" [mkMeal "9" "Cafeteria" "main" (JArr []) (JArr [])].

(** ** The client under overlapping calls

    Every method of the client is an [async] function.  A call runs up to
    [await this.requestAuthenticated(params)] (inside [requestCached], or
    in [getImprint]) and is suspended there; until its response arrives,
    other calls may start and other responses may arrive.  Below, a call is
    split at that point: [call] is what happens when it starts, [settle]
    what happens when its response arrives.  The authenticated request is
    logged when it is started; the outside world answers when the response
    arrives.  What a method does after its request ([op_post]) touches
    neither the cache nor the outside world.  Run back to back the two
    halves are the method itself ([call_then_settle]). *)

Definition personal_data_params : list (string * JSValue) :=
  [("service", JStr "thiapp"); ("method", JStr "persdata");
   ("format", JStr "json")].

Section Overlapping.

Context {World : Type}.
Variable request : JSValue -> M World JSValue.
Variable sessionHandler : (JSValue -> M World JSValue) -> M World JSValue.
Variable courseShortNames : list (string * TableValue).
Context {Date : Type}.
Variable toDateString : Date -> string.
Variables getDate getMonth getFullYear : Date -> Z.

(** The request parameters a call sends. *)
Definition op_params (op : @ClientOp Date) : list (string * JSValue) :=
  match op with
  | OpRequestAuthenticated params => params
  | OpRequestCached _ params => params
  | OpGetPersonalData | OpGetFaculty | OpGetSpoName => personal_data_params
  | OpGetTimetable date detailed =>
      timetable_params getDate getMonth getFullYear date detailed
  | OpGetExams => exams_params
  | OpGetGrades =>
      [("service", JStr "thiapp"); ("method", JStr "grades");
       ("format", JStr "json")]
  | OpGetMensaPlan =>
      [("service", JStr "thiapp"); ("method", JStr "mensa");
       ("format", JStr "json")]
  | OpGetFreeRooms date =>
      [("service", JStr "thiapp"); ("method", JStr "rooms");
       ("format", JStr "json"); ("day", JNum (getDate date));
       ("month", JNum (getMonth date + 1)); ("year", JNum (getFullYear date))]
  | OpGetCampusParkingData =>
      [("service", JStr "thiapp"); ("method", JStr "parking");
       ("format", JStr "json")]
  | OpGetPersonalLecturers =>
      [("service", JStr "thiapp"); ("method", JStr "stpllecturers");
       ("format", JStr "json")]
  | OpGetLecturers from to =>
      [("service", JStr "thiapp"); ("method", JStr "lecturers");
       ("format", JStr "json"); ("from", JStr from); ("to", JStr to)]
  | OpGetImprint =>
      [("service", JStr "thiapp"); ("method", JStr "impressum");
       ("format", JStr "json")]
  end.

(** What the method makes of the outcome [r] of its cached or authenticated
    request: the code after the [await], with its [try]/[catch]. *)
Definition op_post (op : @ClientOp Date) (r : Outcome JSValue)
  : Outcome JSValue :=
  match op with
  | OpGetFaculty =>
      data <~ r ; extractFacultyFromPersonalData courseShortNames data
  | OpGetSpoName =>
      data <~ r ; extractSpoFromPersonalData data
  | OpGetTimetable _ _ =>
      match (res <~ r ;
             semester <~ get_index res 0 ;
             holidays <~ get_index res 1 ;
             timetable <~ get_index res 2 ;
             Return (JObj [("semester", semester); ("holidays", holidays);
                           ("timetable", timetable)])) with
      | Return v => Return v
      | Throw e =>
          if strict_equals (exn_data e) (JStr "Query not possible")
             || strict_equals (exn_data e) (JStr "Time table does not exist")
          then Return (JObj [("timetable", JArr [])])
          else Throw e
      end
  | OpGetExams =>
      match r with
      | Return res => Return res
      | Throw e =>
          if strict_equals (exn_data e) (JStr "No exam data available")
             || strict_equals (exn_data e) (JStr "Query not possible")
          then Return (JArr [])
          else Throw e
      end
  | _ => r
  end.

(** The client together with the calls that are suspended at their
    request, oldest first. *)
Record AsyncClient : Type := mkAsync {
  client : ClientState World;
  inFlight : list (@ClientOp Date)
}.

(** A call starts.  With a cache key it reads the cache ([cache.get]): a
    truthy entry completes the call at once; otherwise, and for the
    uncached methods, the authenticated request is started and the call is
    suspended.  The second component is the result of the call when it
    completed in this step. *)
Definition call (op : @ClientOp Date) (s : AsyncClient)
  : AsyncClient * option (Outcome JSValue) :=
  let suspended :=
    (mkAsync (snd (log_auth (op_params op) (client s))) (inFlight s ++ [op]),
     None) in
  match method_key toDateString op with
  | Some cacheKey =>
      let cached := cache_lookup (cache (client s)) cacheKey in
      if truthy cached then (s, Some (op_post op (Return cached)))
      else suspended
  | None => suspended
  end.

(** The response of the [i]-th suspended call arrives and the call is
    resumed: a successful response of a call with a cache key is stored
    ([cache.set]), then the method finishes. *)
Definition settle (i : nat) (s : AsyncClient)
  : AsyncClient * option (Outcome JSValue) :=
  match inFlight s !! i with
  | None => (s, None)
  | Some op =>
      let (r, c1) :=
        in_world (sessionHandler
                    (requestAuthenticated_callback request (op_params op)))
                 (client s) in
      let c2 :=
        match method_key toDateString op, r with
        | Some cacheKey, Return resp => snd (cache_set cacheKey resp c1)
        | _, _ => c1
        end in
      (mkAsync c2 (delete i (inFlight s)), Some (op_post op r))
  end.

Inductive Event : Type :=
| Call (op : @ClientOp Date)
| Settle (i : nat).

Definition step (ev : Event) (s : AsyncClient)
  : AsyncClient * option (Outcome JSValue) :=
  match ev with
  | Call op => call op s
  | Settle i => settle i s
  end.

(** The state after a schedule of events. *)
Definition run_events (evs : list Event) (s : AsyncClient) : AsyncClient :=
  fold_left (fun s ev => fst (step ev s)) evs s.

(** No suspended call uses the key. *)
Definition key_idle (k : string) (s : AsyncClient) : Prop :=
  forall op, op ∈ inFlight s -> method_key toDateString op <> Some k.

End Overlapping.

Arguments mkAsync {World Date} _ _.
Arguments client {World Date} _.
Arguments inFlight {World Date} _.
Arguments Call {Date} _.
Arguments Settle {Date} _.

(** Concrete schedules on the scripted backend. *)

(** One call of [requestCached("k", {})] suspended at its request. *)
Definition payload_in_flight
  : @AsyncClient (list (Outcome JSValue)) unit :=
  mkAsync (mkClient ∅ [ok_response (JStr "payload")] [[]])
          [OpRequestCached "k" []].

(** The same client after the response has arrived. *)
Definition payload_stored : @AsyncClient (list (Outcome JSValue)) unit :=
  mkAsync (mkClient {[ "k" := JStr "payload" ]} [] [[]]) [].

(** Two calls of [requestCached("k", {})] that both missed and are both
    suspended. *)
Definition two_in_flight : @AsyncClient (list (Outcome JSValue)) unit :=
  mkAsync (mkClient ∅ [ok_response (JStr "first");
                       ok_response (JStr "second")] [[]; []])
          [OpRequestCached "k" []; OpRequestCached "k" []].

(** ** Vocabulary of the SPO extraction *)

Fixpoint only_slashes (s : string) : bool :=
  match s with
  | EmptyString => true
  | String c rest => Ascii.eqb c slash && only_slashes rest
  end.

(** [l.join('/')] *)
Fixpoint join_slash (l : list string) : string :=
  match l with
  | [] => EmptyString
  | x :: rest =>
      match rest with
      | [] => x
      | _ :: _ => x +:+ "/" +:+ join_slash rest
      end
  end.

(** The segments of a list, each followed, or each preceded, by a slash. *)
Fixpoint slash_after (l : list string) : string :=
  match l with
  | [] => EmptyString
  | x :: rest => x +:+ "/" +:+ slash_after rest
  end.

Fixpoint slash_before (l : list string) : string :=
  match l with
  | [] => EmptyString
  | x :: rest => "/" +:+ x +:+ slash_before rest
  end.
(** * Properties *)

(** ** Basic facts about the value model *)

Lemma strict_equals_num (v : JSValue) (n : Z) :
  strict_equals v (JNum n) = true <-> v = JNum n.
Proof.
  destruct v; simpl; split; intros H; try discriminate; try congruence.
  - apply Z.eqb_eq in H. congruence.
  - inversion H. apply Z.eqb_refl.
Qed.

Lemma strict_equals_str (v : JSValue) (s : string) :
  strict_equals v (JStr s) = true <-> v = JStr s.
Proof.
  destruct v; simpl; split; intros H; try discriminate; try congruence.
  - apply String.eqb_eq in H. congruence.
  - inversion H. apply String.eqb_refl.
Qed.

Lemma strict_equals_num_false (v : JSValue) (n : Z) :
  strict_equals v (JNum n) = false <-> v <> JNum n.
Proof.
  rewrite <- strict_equals_num. destruct (strict_equals v (JNum n)); split;
    congruence.
Qed.

Lemma get_prop_data_defined (res status : JSValue) :
  get_prop res "status" = Return status ->
  exists data, get_prop res "data" = Return data.
Proof. destruct res; simpl; intros H; try discriminate; eauto. Qed.

(** ** Status normalization *)

Section ClientFacts.

Context {World : Type}.
Variable request : JSValue -> M World JSValue.
Variable sessionHandler : (JSValue -> M World JSValue) -> M World JSValue.
Variable courseShortNames : list (string * TableValue).
Context {Date : Type}.
Variable toDateString : Date -> string.
Variables getDate getMonth getFullYear : Date -> Z.

Local Abbreviation requestAuthenticated' :=
  (requestAuthenticated request sessionHandler).
Local Abbreviation requestCached' := (requestCached request sessionHandler).
Local Abbreviation run_op' :=
  (run_op request sessionHandler courseShortNames
          toDateString getDate getMonth getFullYear).
Local Abbreviation method_key' := (method_key toDateString).
Local Abbreviation op_params' := (op_params getDate getMonth getFullYear).
Local Abbreviation op_post' := (op_post courseShortNames).
Local Abbreviation call' :=
  (call courseShortNames toDateString getDate getMonth getFullYear).
Local Abbreviation settle' :=
  (settle request sessionHandler courseShortNames
          toDateString getDate getMonth getFullYear).
Local Abbreviation step' :=
  (step request sessionHandler courseShortNames
        toDateString getDate getMonth getFullYear).
Local Abbreviation run_events' :=
  (run_events request sessionHandler courseShortNames
              toDateString getDate getMonth getFullYear).
Local Abbreviation key_idle' := (@key_idle World Date toDateString).
Local Abbreviation AsyncClient' := (@AsyncClient World Date).
Local Abbreviation Event' := (@Event Date).
Local Abbreviation getExams' := (getExams request sessionHandler).
Local Abbreviation getExams_try' := (getExams_try request sessionHandler).
Local Abbreviation getTimetable' :=
  (getTimetable request sessionHandler
                toDateString getDate getMonth getFullYear).
Local Abbreviation getTimetable_try' :=
  (getTimetable_try request sessionHandler
                    toDateString getDate getMonth getFullYear).

Lemma callback_normalized params session w res w' :
  request (JObj (obj_spread [("session", session)] params)) w = (Return res, w') ->
  requestAuthenticated_callback request params session w = (normalized res, w').
Proof.
  intros Hreq. unfold requestAuthenticated_callback, bindM, normalized.
  rewrite Hreq. unfold lift, throw.
  destruct (get_prop res "status") as [status|e] eqn:Hs; simpl; [|done].
  destruct (get_prop_data_defined _ _ Hs) as [data Hd]. rewrite Hd.
  destruct (strict_equals status (JNum 0)); simpl; [|done].
  destruct (get_index data 0) as [d0|e] eqn:H0; simpl; [|done].
  assert (exists d1, get_index data 1 = Return d1) as [d1 H1].
  { destruct data; simpl in *; try discriminate; eauto. }
  rewrite H1. simpl. destruct (strict_equals d0 (JNum 0)); done.
Qed.

(** C1.  For every response [res] delivered by the underlying request, the
    function that [requestAuthenticated] hands to the session handler
    normalizes both status encodings into [APIError]: a non-zero
    [res.status] throws [APIError(res.status, res.data)]; otherwise a
    non-zero [res.data[0]] throws [APIError(res.data[0], res.data[1])];
    and [res.data[1]] is returned exactly when [res.status] and
    [res.data[0]] are both [0]. *)
Theorem requestAuthenticated_normalizes_status
    (params : list (string * JSValue)) (session res : JSValue) (w w' : World) :
  request (JObj (obj_spread [("session", session)] params)) w = (Return res, w') ->
  let result := requestAuthenticated_callback request params session w in
  (forall status data,
      get_prop res "status" = Return status ->
      get_prop res "data" = Return data ->
      status <> JNum 0 ->
      result = (Throw (APIError status data), w'))
  /\ (forall data d0 d1,
      get_prop res "status" = Return (JNum 0) ->
      get_prop res "data" = Return data ->
      get_index data 0 = Return d0 ->
      get_index data 1 = Return d1 ->
      d0 <> JNum 0 ->
      result = (Throw (APIError d0 d1), w'))
  /\ (forall v,
      result = (Return v, w') <->
      exists data,
        get_prop res "status" = Return (JNum 0)
        /\ get_prop res "data" = Return data
        /\ get_index data 0 = Return (JNum 0)
        /\ get_index data 1 = Return v).
Proof.
  intros Hreq result. subst result.
  rewrite (callback_normalized _ _ _ _ _ Hreq). unfold normalized.
  repeat split.
  - intros status data Hs Hd Hne. rewrite Hs, Hd. simpl.
    apply strict_equals_num_false in Hne. by rewrite Hne.
  - intros data d0 d1 Hs Hd H0 H1 Hne. rewrite Hs, Hd. simpl.
    rewrite H0, H1. simpl. apply strict_equals_num_false in Hne.
    by rewrite Hne.
  - intros H.
    destruct (get_prop res "status") as [status|] eqn:Hs; simpl in H; [|done].
    destruct (get_prop res "data") as [data|] eqn:Hd; simpl in H; [|done].
    destruct (strict_equals status (JNum 0)) eqn:Es; [|done].
    destruct (get_index data 0) as [d0|] eqn:H0; simpl in H; [|done].
    destruct (get_index data 1) as [d1|] eqn:H1; simpl in H; [|done].
    destruct (strict_equals d0 (JNum 0)) eqn:E0; [|done].
    apply strict_equals_num in Es, E0. subst. exists data.
    repeat split; congruence.
  - intros (data & Hs & Hd & H0 & H1). rewrite Hs, Hd. simpl.
    rewrite H0, H1. done.
Qed.

(** With a session handler that calls its method once, the whole of
    [requestAuthenticated] delivers the normalized response. *)
Lemma requestAuthenticated_direct_session
    params (st : ClientState World) res w' :
  request (JObj (obj_spread [("session", JStr "session-token")] params))
          (world st) = (Return res, w') ->
  requestAuthenticated request direct_session params st
  = (normalized res, mkClient (cache st) w' (authLog st ++ [params])).
Proof.
  intros Hreq. unfold requestAuthenticated, bindM, log_auth, in_world,
    direct_session. simpl.
  rewrite (callback_normalized _ _ _ _ _ Hreq). by destruct (normalized res).
Qed.

(** ** Cache discipline *)

Lemma cache_extends_refl (c : gmap string JSValue) : cache_extends c c.
Proof. intros k v H. split; eauto. Qed.

Lemma cache_extends_trans (c1 c2 c3 : gmap string JSValue) :
  cache_extends c1 c2 -> cache_extends c2 c3 -> cache_extends c1 c3.
Proof.
  intros H12 H23 k v H1. destruct (H12 k v H1) as [[v2 H2] Hv].
  destruct (H23 k v2 H2) as [H3 Hv3]. split; [done|].
  intros Ht. specialize (Hv Ht). rewrite Hv in H2. inversion H2; subst.
  by apply Hv3.
Qed.

Lemma cache_extends_store (c : gmap string JSValue) k v :
  truthy (cache_lookup c k) = false -> cache_extends c (cache_store k v c).
Proof.
  intros Hmiss k' v' H. unfold cache_store.
  destruct (decide (k = k')) as [->|Hne].
  - rewrite lookup_insert_eq. split; [eauto|].
    intros Ht. unfold cache_lookup in Hmiss. rewrite H in Hmiss. simpl in Hmiss.
    congruence.
  - rewrite lookup_insert_ne by done. split; eauto.
Qed.

Lemma cache_extends_dom (c c' : gmap string JSValue) :
  cache_extends c c' -> dom c ⊆ dom c'.
Proof.
  intros H k Hk. apply elem_of_dom in Hk as [v Hv]. apply elem_of_dom.
  by destruct (H k v Hv).
Qed.

Lemma keeps_cache_ret {W A} (a : A) : keeps_cache (@ret (ClientState W) A a).
Proof. intros st. apply cache_extends_refl. Qed.

Lemma keeps_cache_throw {W A} e : keeps_cache (@throw (ClientState W) A e).
Proof. intros st. apply cache_extends_refl. Qed.

Lemma keeps_cache_lift {W A} (o : Outcome A) :
  keeps_cache (@lift (ClientState W) A o).
Proof. intros st. apply cache_extends_refl. Qed.

Lemma keeps_cache_bind {W A B} (m : M (ClientState W) A)
    (f : A -> M (ClientState W) B) :
  keeps_cache m -> (forall a, keeps_cache (f a)) -> keeps_cache (bindM m f).
Proof.
  intros Hm Hf st. unfold bindM. specialize (Hm st).
  destruct (m st) as [[a|e] s1]; simpl in *; [|done].
  eapply cache_extends_trans; [exact Hm|apply Hf].
Qed.

Lemma keeps_cache_try {W A} (body : M (ClientState W) A) handler :
  keeps_cache body -> (forall e, keeps_cache (handler e)) ->
  keeps_cache (try_catch body handler).
Proof.
  intros Hm Hh st. unfold try_catch. specialize (Hm st).
  destruct (body st) as [[a|e] s1]; simpl in *; [done|].
  eapply cache_extends_trans; [exact Hm|apply Hh].
Qed.

Lemma requestAuthenticated_effect params (st : ClientState World) :
  exists r w',
    sessionHandler (requestAuthenticated_callback request params) (world st)
      = (r, w')
    /\ requestAuthenticated request sessionHandler params st
      = (r, mkClient (cache st) w' (authLog st ++ [params])).
Proof.
  unfold requestAuthenticated, bindM, log_auth, in_world. simpl.
  destruct (sessionHandler _ (world st)) as [r w'] eqn:E.
  exists r, w'. split; [done|]. by destruct r.
Qed.

Lemma requestAuthenticated_cache params (st : ClientState World) :
  cache (snd (requestAuthenticated request sessionHandler params st)) = cache st.
Proof.
  destruct (requestAuthenticated_effect params st) as (r & w' & _ & ->). done.
Qed.

Lemma requestAuthenticated_log params (st : ClientState World) :
  authLog (snd (requestAuthenticated request sessionHandler params st))
  = authLog st ++ [params].
Proof.
  destruct (requestAuthenticated_effect params st) as (r & w' & _ & ->). done.
Qed.

Lemma keeps_cache_requestAuthenticated params :
  keeps_cache (requestAuthenticated request sessionHandler params).
Proof.
  intros st. rewrite requestAuthenticated_cache. apply cache_extends_refl.
Qed.

Lemma requestCached_hit k params (st : ClientState World) :
  truthy (cache_lookup (cache st) k) = true ->
  requestCached request sessionHandler k params st
  = (Return (cache_lookup (cache st) k), st).
Proof.
  intros H. unfold requestCached, bindM, cache_get. by rewrite H.
Qed.

Lemma requestCached_miss k params (st : ClientState World) :
  truthy (cache_lookup (cache st) k) = false ->
  requestCached request sessionHandler k params st
  = match requestAuthenticated request sessionHandler params st with
    | (Return resp, st1) =>
        (Return resp,
         mkClient (cache_store k resp (cache st1)) (world st1) (authLog st1))
    | (Throw e, st1) => (Throw e, st1)
    end.
Proof.
  intros H. unfold requestCached, bindM, cache_get, cache_set, ret.
  rewrite H. by destruct (requestAuthenticated _ _ _ _) as [[resp|e] st1].
Qed.

Lemma keeps_cache_requestCached k params :
  keeps_cache (requestCached request sessionHandler k params).
Proof.
  intros st. destruct (truthy (cache_lookup (cache st) k)) eqn:E.
  - rewrite requestCached_hit by done. apply cache_extends_refl.
  - rewrite requestCached_miss by done.
    pose proof (requestAuthenticated_cache params st) as Hc.
    destruct (requestAuthenticated _ _ _ _) as [[resp|e] st1]; simpl in *.
    + rewrite Hc. by apply cache_extends_store.
    + rewrite Hc. apply cache_extends_refl.
Qed.

Ltac keeps_cache_tac :=
  repeat first
    [ apply keeps_cache_requestCached
    | apply keeps_cache_requestAuthenticated
    | apply keeps_cache_ret
    | apply keeps_cache_throw
    | apply keeps_cache_lift
    | apply keeps_cache_bind; [|intros ?]
    | apply keeps_cache_try; [|intros ?]
    | match goal with
      | |- keeps_cache (if ?b then _ else _) => destruct b
      end ].

Lemma keeps_cache_run_op (op : ClientOp) : keeps_cache (run_op' op).
Proof.
  destruct op; simpl;
    unfold getPersonalData, getFaculty, getSpoName, getTimetable,
      getTimetable_try, getExams, getExams_try, getGrades, getMensaPlan,
      getFreeRooms, getCampusParkingData, getPersonalLecturers, getLecturers,
      getImprint, getPersonalData;
    keeps_cache_tac.
Qed.

Lemma truthy_lookup_Some (c : gmap string JSValue) k v :
  cache_lookup c k = v -> truthy v = true -> c !! k = Some v.
Proof.
  unfold cache_lookup. destruct (c !! k) as [v'|]; simpl; intros <- Ht;
    [done|discriminate].
Qed.

(** *** Overlapping calls *)

(** The request every operation makes, and what it does with the outcome. *)
Lemma run_op_split (op : ClientOp) (st : ClientState World) :
  run_op' op st
  = match method_key' op with
    | Some k =>
        (op_post' op (fst (requestCached' k (op_params' op) st)),
         snd (requestCached' k (op_params' op) st))
    | None =>
        (op_post' op (fst (requestAuthenticated' (op_params' op) st)),
         snd (requestAuthenticated' (op_params' op) st))
    end.
Proof.
  destruct op; simpl;
    unfold getPersonalData, getFaculty, getSpoName, getTimetable,
      getTimetable_try, getExams, getExams_try, getGrades, getMensaPlan,
      getFreeRooms, getCampusParkingData, getPersonalLecturers, getLecturers,
      getImprint, getPersonalData, try_catch, bindM, lift, ret, throw,
      personal_data_params;
    try destruct (requestCached' _ _ st) as [[res|e] s1];
    try destruct (requestAuthenticated' _ st) as [[res|e] s1];
    simpl; try done;
    repeat match goal with
           | |- context [get_index ?r ?i] => destruct (get_index r i); simpl
           end;
    try done;
    try (by destruct (extractFacultyFromPersonalData _ _));
    try (by destruct (extractSpoFromPersonalData _));
    by destruct (_ || _).
Qed.

(** Run back to back, the two halves of a call are the method: a call
    that completes at once is the method on a hit, and a suspended call
    that is resumed before anything else happens is the method on a
    miss. *)
Lemma call_then_settle (op : ClientOp) (st : ClientState World) :
  match call' op (mkAsync st []) with
  | (s1, Some r) => s1 = mkAsync st [] /\ run_op' op st = (r, st)
  | (s1, None) =>
      settle' 0 s1
      = (mkAsync (snd (run_op' op st)) [], Some (fst (run_op' op st)))
  end.
Proof.
  rewrite run_op_split. unfold call, settle. simpl.
  destruct (method_key' op) as [k|] eqn:Ek.
  - destruct (truthy (cache_lookup (cache st) k)) eqn:E.
    + rewrite requestCached_hit by done. done.
    + simpl. rewrite Ek. rewrite requestCached_miss by done.
      unfold requestAuthenticated, bindM, log_auth. simpl.
      destruct (in_world _ _) as [[resp|e] c1]; done.
  - simpl. rewrite Ek.
    unfold requestAuthenticated, bindM, log_auth. simpl.
    destruct (in_world _ _) as [[resp|e] c1]; done.
Qed.

Lemma in_world_cache {A} (m : M World A) (st : ClientState World) :
  cache (snd (in_world m st)) = cache st.
Proof. unfold in_world. by destruct (m (world st)). Qed.

Lemma call_cache (op : ClientOp) (s : AsyncClient') :
  cache (client (fst (call' op s))) = cache (client s).
Proof.
  unfold call. destruct (method_key' op) as [k|]; [|done].
  by destruct (truthy _).
Qed.

Lemma call_inFlight (op : ClientOp) (s : AsyncClient') (k : string) :
  (truthy (cache_lookup (cache (client s)) k) = true
   \/ method_key' op <> Some k) ->
  key_idle' k s -> key_idle' k (fst (call' op s)).
Proof.
  intros Hk Hidle. unfold call.
  destruct (method_key' op) as [k'|] eqn:Ek.
  - destruct (truthy (cache_lookup (cache (client s)) k')) eqn:E; [done|].
    intros op' Hop'. simpl in Hop'. apply elem_of_app in Hop' as [Hop'|Hop'].
    + by apply Hidle.
    + apply list_elem_of_singleton in Hop'. subst op'. rewrite Ek.
      destruct Hk as [Hk|Hk]; congruence.
  - intros op' Hop'. simpl in Hop'. apply elem_of_app in Hop' as [Hop'|Hop'].
    + by apply Hidle.
    + apply list_elem_of_singleton in Hop'. subst op'. by rewrite Ek.
Qed.

Lemma elem_of_delete_list {A} (l : list A) (i : nat) (x : A) :
  x ∈ delete i l -> x ∈ l.
Proof.
  revert i. induction l as [|y l IH]; intros [|i]; simpl; intros H.
  - done.
  - done.
  - by right.
  - apply elem_of_cons in H as [->|H]; [left|right; by apply (IH i)].
Qed.

Lemma settle_inFlight (i : nat) (s : AsyncClient') (op : ClientOp) :
  op ∈ inFlight (fst (settle' i s)) -> op ∈ inFlight s.
Proof.
  unfold settle. destruct (inFlight s !! i) as [op'|]; [|done].
  destruct (in_world _ _) as [r c1]. simpl. apply elem_of_delete_list.
Qed.

Lemma settle_other_key (i : nat) (s : AsyncClient') (k : string) :
  (forall op, inFlight s !! i = Some op -> method_key' op <> Some k) ->
  cache (client (fst (settle' i s))) !! k = cache (client s) !! k.
Proof.
  intros Hk. unfold settle. destruct (inFlight s !! i) as [op|]; [|done].
  specialize (Hk op eq_refl).
  pose proof (in_world_cache
                (sessionHandler
                   (requestAuthenticated_callback request (op_params' op)))
                (client s)) as Hc.
  destruct (in_world _ _) as [r c1]. simpl in *.
  destruct (method_key' op) as [k'|]; [|by rewrite Hc].
  destruct r as [resp|e]; [|by rewrite Hc]. simpl. unfold cache_store.
  rewrite lookup_insert_ne by congruence. by rewrite Hc.
Qed.

Lemma settle_keeps_keys (i : nat) (s : AsyncClient') (k : string) :
  is_Some (cache (client s) !! k) ->
  is_Some (cache (client (fst (settle' i s))) !! k).
Proof.
  intros Hk. unfold settle. destruct (inFlight s !! i) as [op|]; [|done].
  pose proof (in_world_cache
                (sessionHandler
                   (requestAuthenticated_callback request (op_params' op)))
                (client s)) as Hc.
  destruct (in_world _ _) as [r c1]. simpl in *.
  destruct (method_key' op) as [k'|]; [|by rewrite Hc].
  destruct r as [resp|e]; [|by rewrite Hc]. simpl. unfold cache_store.
  destruct (decide (k' = k)) as [->|Hne].
  - rewrite lookup_insert_eq. eauto.
  - rewrite lookup_insert_ne by done. by rewrite Hc.
Qed.

Lemma step_keeps_keys (ev : Event') (s : AsyncClient') (k : string) :
  is_Some (cache (client s) !! k) ->
  is_Some (cache (client (fst (step' ev s))) !! k).
Proof.
  destruct ev as [op|i]; simpl.
  - by rewrite call_cache.
  - apply settle_keeps_keys.
Qed.

Lemma run_events_keeps_keys (evs : list Event') (s : AsyncClient') (k : string) :
  is_Some (cache (client s) !! k) ->
  is_Some (cache (client (run_events' evs s)) !! k).
Proof.
  revert s. induction evs as [|ev evs IH]; intros s Hk; simpl; [done|].
  apply IH. by apply step_keeps_keys.
Qed.

(** A truthy entry whose key no suspended call uses survives every step,
    and its key stays unused. *)
Lemma step_keeps_entry (ev : Event') (s : AsyncClient') (k : string) v :
  cache (client s) !! k = Some v -> truthy v = true -> key_idle' k s ->
  cache (client (fst (step' ev s))) !! k = Some v
  /\ key_idle' k (fst (step' ev s)).
Proof.
  intros Hv Ht Hidle. destruct ev as [op|i]; simpl.
  - split; [by rewrite call_cache|].
    apply call_inFlight; [|done].
    left. unfold cache_lookup. by rewrite Hv.
  - split.
    + rewrite settle_other_key; [done|].
      intros op Hop. apply Hidle. by eapply list_elem_of_lookup_2.
    + intros op Hop. apply Hidle. by eapply settle_inFlight.
Qed.

Lemma run_events_keeps_entry (evs : list Event') (s : AsyncClient')
    (k : string) v :
  cache (client s) !! k = Some v -> truthy v = true -> key_idle' k s ->
  cache (client (run_events' evs s)) !! k = Some v
  /\ key_idle' k (run_events' evs s).
Proof.
  revert s. induction evs as [|ev evs IH]; intros s Hv Ht Hidle; simpl;
    [done|].
  destruct (step_keeps_entry ev s k v Hv Ht Hidle) as [Hv' Hidle'].
  by apply IH.
Qed.

(** C2, for truthy responses and without an overlapping call on the key.
    [requestCached] memoizes successful truthy responses: when a call with
    a key completes with a truthy value and no other call with that key is
    suspended at that moment, every later call with that key, after any
    schedule of further calls and responses and with any parameters,
    returns that value at once and leaves the whole state (cache, outside
    world, log of authenticated requests, suspended calls) untouched.  On
    a miss the authenticated request is started and the call suspended,
    and when its response arrives successfully the result is stored under
    the key and returned. *)
Theorem requestCached_memoizes_truthy
    (cacheKey : string) (params : list (string * JSValue)) :
  (forall (ev : Event') (s s1 : AsyncClient') (v : JSValue),
      step' ev s = (s1, Some (Return v)) ->
      (ev = Call (OpRequestCached cacheKey params)
       \/ exists i, ev = Settle i
                    /\ inFlight s !! i = Some (OpRequestCached cacheKey params)) ->
      truthy v = true ->
      key_idle' cacheKey s1 ->
      forall (evs : list Event') (params' : list (string * JSValue)),
        step' (Call (OpRequestCached cacheKey params')) (run_events' evs s1)
        = (run_events' evs s1, Some (Return v)))
  /\ (forall (s : AsyncClient'),
        truthy (cache_lookup (cache (client s)) cacheKey) = false ->
        call' (OpRequestCached cacheKey params) s
        = (mkAsync (mkClient (cache (client s)) (world (client s))
                             (authLog (client s) ++ [params]))
                   (inFlight s ++ [OpRequestCached cacheKey params]),
           None))
  /\ (forall (s : AsyncClient') (i : nat) (resp : JSValue)
             (c1 : ClientState World),
        inFlight s !! i = Some (OpRequestCached cacheKey params) ->
        in_world (sessionHandler
                    (requestAuthenticated_callback request params))
                 (client s) = (Return resp, c1) ->
        snd (settle' i s) = Some (Return resp)
        /\ cache (client (fst (settle' i s))) !! cacheKey = Some resp).
Proof.
  split; [|split].
  - intros ev s s1 v Hstep Hev Ht Hidle evs params'.
    assert (cache (client s1) !! cacheKey = Some v) as Hstored.
    { destruct Hev as [->|(i & -> & Hi)]; simpl in Hstep.
      - unfold call in Hstep. simpl in Hstep.
        destruct (truthy (cache_lookup (cache (client s)) cacheKey)) eqn:E;
          [|discriminate].
        inversion Hstep; subst. by apply truthy_lookup_Some.
      - unfold settle in Hstep. rewrite Hi in Hstep.
        destruct (in_world _ _) as [r c1]. simpl in Hstep.
        inversion Hstep; subst. simpl. apply lookup_insert_eq. }
    destruct (run_events_keeps_entry evs s1 cacheKey v Hstored Ht Hidle)
      as [Hkeep _].
    simpl. unfold call. simpl. unfold cache_lookup. rewrite Hkeep. simpl.
    by rewrite Ht.
  - intros s Hmiss. unfold call. simpl. by rewrite Hmiss.
  - intros s i resp c1 Hi Hreq. unfold settle. rewrite Hi. simpl.
    rewrite Hreq. simpl. split; [done|]. apply lookup_insert_eq.
Qed.

(** C5, for deletion, and for truthy entries whose key no suspended call
    uses.  Under every schedule of calls and responses the response cache
    only grows: no entry is deleted, so the set of cached keys only grows;
    and an entry whose value is truthy, once no call with its key is
    suspended, stays associated with its key unchanged. *)
Theorem cache_entries_persist
    (evs : list Event') (s : AsyncClient') :
  dom (cache (client s)) ⊆ dom (cache (client (run_events' evs s)))
  /\ (forall k v, cache (client s) !! k = Some v ->
                  is_Some (cache (client (run_events' evs s)) !! k))
  /\ (forall k v, cache (client s) !! k = Some v -> truthy v = true ->
                  key_idle' k s ->
                  cache (client (run_events' evs s)) !! k = Some v).
Proof.
  split; [|split].
  - intros k Hk. apply elem_of_dom in Hk. apply elem_of_dom.
    by apply run_events_keeps_keys.
  - intros k v Hk. apply run_events_keeps_keys. eauto.
  - intros k v Hk Ht Hidle.
    by destruct (run_events_keeps_entry evs s k v Hk Ht Hidle).
Qed.




End ClientFacts.

(** *** Runs on the scripted backend *)

(** A response with status [0] whose [data] is [null] makes the callback
    fail on [res.data[0]]. *)
Example callback_null_data :
  requestAuthenticated_callback scripted_request [] (JStr "s")
    [Return (JObj [("status", JNum 0); ("data", JNull)])]
  = (Throw TypeError, []).
Proof. reflexivity. Qed.

Lemma requestAuthenticated_normalizes_status_witness :
  scripted_request (JObj (obj_spread [("session", JStr "s")] []))
                   [new_error_response (-120) "Query not possible"]
  = (new_error_response (-120) "Query not possible", [])
  /\ requestAuthenticated_callback scripted_request [] (JStr "s")
       [new_error_response (-120) "Query not possible"]
     = (Throw (APIError (JNum (-120)) (JStr "Query not possible")), []).
Proof.
  split; [reflexivity|].
  eapply (requestAuthenticated_normalizes_status scripted_request [] (JStr "s")).
  - reflexivity.
  - reflexivity.
  - reflexivity.
  - reflexivity.
  - reflexivity.
  - discriminate.
Defined.

Lemma requestCached_memoizes_truthy_witness :
  step scripted_request direct_session sample_table
    a_monday_toDateString a_monday_getDate a_monday_getMonth
    a_monday_getFullYear (Settle 0) payload_in_flight
  = (payload_stored, Some (Return (JStr "payload")))
  /\ truthy (JStr "payload") = true
  /\ step scripted_request direct_session sample_table
       a_monday_toDateString a_monday_getDate a_monday_getMonth
       a_monday_getFullYear
       (Call (OpRequestCached "k" [("again", JBool true)]))
       (run_events scripted_request direct_session sample_table
          a_monday_toDateString a_monday_getDate a_monday_getMonth
          a_monday_getFullYear
          [Call OpGetExams; Call (OpRequestCached "other" []); Settle 1]
          payload_stored)
     = (run_events scripted_request direct_session sample_table
          a_monday_toDateString a_monday_getDate a_monday_getMonth
          a_monday_getFullYear
          [Call OpGetExams; Call (OpRequestCached "other" []); Settle 1]
          payload_stored,
        Some (Return (JStr "payload"))).
Proof.
  assert (step scripted_request direct_session sample_table
            a_monday_toDateString a_monday_getDate a_monday_getMonth
            a_monday_getFullYear (Settle 0) payload_in_flight
          = (payload_stored, Some (Return (JStr "payload")))) as H.
  { vm_compute. reflexivity. }
  split; [exact H|]. split; [reflexivity|].
  destruct (requestCached_memoizes_truthy scripted_request direct_session
              sample_table a_monday_toDateString a_monday_getDate
              a_monday_getMonth a_monday_getFullYear "k" [])
    as [Hmemo _].
  apply (Hmemo (Settle 0) payload_in_flight payload_stored (JStr "payload") H).
  - right. exists 0. split; reflexivity.
  - reflexivity.
  - intros op Hop. simpl in Hop. by apply elem_of_nil in Hop.
Defined.

(** Two overlapping calls with one key both miss; the second response
    replaces the truthy value the first call stored and returned. *)
Example overlapping_calls_replace_value :
  snd (step scripted_request direct_session sample_table
         a_monday_toDateString a_monday_getDate a_monday_getMonth
         a_monday_getFullYear (Settle 0) two_in_flight)
  = Some (Return (JStr "first"))
  /\ cache (client (run_events scripted_request direct_session sample_table
                      a_monday_toDateString a_monday_getDate
                      a_monday_getMonth a_monday_getFullYear
                      [Settle 0] two_in_flight))
       !! "k" = Some (JStr "first")
  /\ cache (client (run_events scripted_request direct_session sample_table
                      a_monday_toDateString a_monday_getDate
                      a_monday_getMonth a_monday_getFullYear
                      [Settle 0; Settle 0] two_in_flight))
       !! "k" = Some (JStr "second").
Proof. vm_compute. repeat split; reflexivity. Qed.

(** The first call under ["k"] returns the payload [0] and stores it; the
    second call with the same key does not return the stored value: it
    performs a second authenticated request and returns its payload [7]. *)
Lemma requestCached_refetches_falsy_value :
  requestCached scripted_request direct_session "k" [] zero_then_seven
  = (Return (JNum 0), after_zero)
  /\ cache after_zero !! "k" = Some (JNum 0)
  /\ authLog after_zero = [[]]
  /\ fst (requestCached scripted_request direct_session "k" [] after_zero)
     = Return (JNum 7)
  /\ authLog (snd (requestCached scripted_request direct_session "k" []
                     after_zero))
     = [[]; []].
Proof. vm_compute. repeat split; reflexivity. Qed.

Lemma cache_entries_persist_witness :
  cache (client payload_stored) !! "k" = Some (JStr "payload")
  /\ truthy (JStr "payload") = true
  /\ cache (client (run_events scripted_request direct_session sample_table
                      a_monday_toDateString a_monday_getDate
                      a_monday_getMonth a_monday_getFullYear
                      [Call (OpRequestCached "k" []); Call OpGetExams;
                       Call (OpGetTimetable tt false); Settle 1; Settle 0]
                      payload_stored))
       !! "k" = Some (JStr "payload").
Proof.
  split; [reflexivity|]. split; [reflexivity|].
  eapply (cache_entries_persist scripted_request direct_session sample_table
            a_monday_toDateString a_monday_getDate a_monday_getMonth
            a_monday_getFullYear).
  - reflexivity.
  - reflexivity.
  - intros op Hop. simpl in Hop. by apply elem_of_nil in Hop.
Defined.

(** An existing entry is overwritten: key ["k"] holds [0] after the first
    cached request and [7] after the second. *)
Lemma cache_entry_overwritten :
  cache after_zero !! "k" = Some (JNum 0)
  /\ cache (snd (run_op scripted_request direct_session []
                   a_monday_toDateString a_monday_getDate a_monday_getMonth
                   a_monday_getFullYear
                   (OpRequestCached "k" []) after_zero))
       !! "k" = Some (JNum 7).
Proof. vm_compute. split; reflexivity. Qed.



Example getTimetable_not_selected :
  getTimetable scripted_request direct_session
    a_monday_toDateString a_monday_getDate a_monday_getMonth
    a_monday_getFullYear tt false
    (fresh_client [new_error_response (-1) "Query not possible"])
  = (Return (JObj [("timetable", JArr [])]),
     mkClient ∅ []
       [timetable_params a_monday_getDate a_monday_getMonth
                         a_monday_getFullYear tt false]).
Proof. reflexivity. Qed.

Example getExams_other_error :
  getExams scripted_request direct_session
    (fresh_client [old_error_response (-112) "No Session"])
  = (Throw (APIError (JNum (-112)) (JStr "No Session")),
     mkClient ∅ [] [exams_params]).
Proof. reflexivity. Qed.

(** ** Faculty extraction *)

(** C3: the helper is not total.  On the payload [{ persdata: { stg: 'INF' } }],
    which passes the guard because [stg] is present, the helper reads
    [data.persdata.po_url.split] on an [undefined] PO URL and raises a
    [TypeError], whatever the course table is. *)
Theorem extractFaculty_throws_without_po_url
    (courseShortNames : list (string * TableValue)) :
  extractFacultyFromPersonalData courseShortNames stg_only_payload
  = Throw TypeError.
Proof. reflexivity. Qed.

Lemma extractFaculty_null_without_persdata
    (courseShortNames : list (string * TableValue)) (data : JSValue) :
  truthy data = false \/ get_prop data "persdata" = Return JUndefined ->
  extractFacultyFromPersonalData courseShortNames data = Return JNull.
Proof.
  unfold extractFacultyFromPersonalData. intros [H|H].
  - by rewrite H.
  - destruct (truthy data); [|done]. simpl. by rewrite H.
Qed.

Lemma table_get_elem_of (table : list (string * TableValue)) (k : string) :
  k ∈ map fst table -> exists v, table_get table k = Some v /\ (k, v) ∈ table.
Proof.
  induction table as [|[k' v'] table IH]; simpl; intros H.
  - by apply elem_of_nil in H.
  - destruct (String.eqb k k') eqn:E.
    + apply String.eqb_eq in E. subst. exists v'. split; [done|left].
    + apply elem_of_cons in H as [H|H].
      * subst. by rewrite String.eqb_refl in E.
      * destruct (IH H) as (v & Hv & Hin). exists v. split; [done|by right].
Qed.

Lemma find_m_total (p : string -> Outcome bool) (l : list string) :
  (forall x, x ∈ l -> exists b, p x = Return b) ->
  exists v, find_m p l = Return v
            /\ (v = JUndefined \/ exists x, v = JStr x /\ x ∈ l).
Proof.
  induction l as [|x l IH]; simpl; intros Hp.
  - exists JUndefined. eauto.
  - destruct (Hp x) as [b Hb]; [left|]. rewrite Hb. simpl. destruct b.
    + exists (JStr x). split; [done|]. right. exists x. split; [done|left].
    + destruct IH as (v & Hv & Hcase).
      { intros y Hy. apply Hp. by right. }
      exists v. split; [done|]. destruct Hcase as [->|(y & -> & Hy)]; [by left|].
      right. exists y. split; [done|by right].
Qed.

(** With a PO URL that is a string and a table of faculties, the helper
    returns a faculty name of the table or [undefined]. *)
Lemma extractFaculty_total_with_po_url
    (table : list (string * TableValue)) (data persdata stg : JSValue)
    (url : string) :
  faculties_only table ->
  truthy data = true ->
  get_prop data "persdata" = Return persdata ->
  truthy persdata = true ->
  get_prop persdata "stg" = Return stg ->
  get_prop persdata "po_url" = Return (JStr url) ->
  exists v, extractFacultyFromPersonalData table data = Return v
            /\ (v = JNull \/ faculty_or_undefined table v).
Proof.
  intros Htable Hdata Hpers Hp Hstg Hurl. unfold extractFacultyFromPersonalData.
  rewrite Hdata. cbn [negb bindO]. rewrite Hpers. cbn [negb bindO].
  rewrite Hp. cbn [negb bindO]. rewrite Hstg. cbn [negb bindO].
  rewrite Hurl. cbn [negb bindO js_split].
  destruct (negb (truthy stg) && negb (truthy (JStr url))); [by eauto|].
  set (faculties := filter (fun key => not_source key = true) (map fst table)).
  assert (forall x, x ∈ faculties ->
            exists p c, table_get table x = Some (Faculty p c)) as Hfac.
  { intros x Hx. apply list_elem_of_filter in Hx as [Hns Hx].
    destruct (table_get_elem_of _ _ Hx) as (v & Hv & Hin).
    unfold not_source in Hns. apply negb_true_iff, String.eqb_neq in Hns.
    destruct (Htable _ _ Hin Hns) as (p & c & ->). eauto. }
  assert (forall x, x ∈ faculties -> x ∈ map fst table) as Hsub.
  { intros x Hx. by apply list_elem_of_filter in Hx as [_ Hx]. }
  match goal with
  | |- context [find_m ?p (filter ?P faculties)] =>
      destruct (find_m_total p (filter P faculties)) as (m & Hm & Hcase)
  end.
  { intros x Hx. apply list_elem_of_filter in Hx as [_ Hx].
    destruct (Hfac x Hx) as (p & c & ->). simpl. eauto. }
  rewrite Hm. cbn [bindO]. destruct (truthy m) eqn:Et.
  - exists m. split; [done|]. right.
    destruct Hcase as [->|(x & -> & Hx)]; [by left|].
    right. exists x. split; [done|].
    apply list_elem_of_filter in Hx as [_ Hx]. by apply Hsub.
  - match goal with
    | |- context [find_m ?p faculties] =>
        destruct (find_m_total p faculties) as (f & Hf & Hcase')
    end.
    { intros x Hx. destruct (Hfac x Hx) as (p & c & ->). simpl. eauto. }
    exists f. split; [done|]. right.
    destruct Hcase' as [->|(x & -> & Hx)]; [by left|].
    right. exists x. split; [done|]. by apply Hsub.
Qed.

Example extractFaculty_by_po_url :
  extractFacultyFromPersonalData sample_table
    (personal_data (JStr "INF")
       (JStr "https://www.thi.de/spo/maschinenbau/mb/2020/"))
  = Return (JStr "Maschinenbau").
Proof. reflexivity. Qed.

Example extractFaculty_by_short_name :
  extractFacultyFromPersonalData sample_table
    (personal_data (JStr "INF") (JStr "https://www.thi.de/spo/other/x/2020/"))
  = Return (JStr "Informatik").
Proof. reflexivity. Qed.

Example extractFaculty_no_match :
  extractFacultyFromPersonalData sample_table
    (personal_data (JStr "XY") (JStr "https://www.thi.de/spo/other/x/2020/"))
  = Return JUndefined.
Proof. reflexivity. Qed.

Example extractFaculty_missing_fields :
  extractFacultyFromPersonalData sample_table
    (personal_data JUndefined JUndefined)
  = Return JNull.
Proof. reflexivity. Qed.

Example extractSpo_last_segment :
  extractSpoFromPersonalData
    (personal_data (JStr "INF")
       (JStr "https://www.thi.de/spo/maschinenbau/mb/2020/"))
  = Return (JStr "2020").
Proof. reflexivity. Qed.

(** ** Meal-plan page *)

Section MealPlanFacts.

Variable containsSelectedAllergen : JSValue -> JSValue -> JSValue.
Variable containsSelectedPreference : JSValue -> JSValue -> JSValue.
Variables allergenSelection preferencesSelection : JSValue.
Variable t : string -> string.

Local Abbreviation showMatch' :=
  (showMatch containsSelectedAllergen containsSelectedPreference
             allergenSelection preferencesSelection).

(** C4.  [showMatch] is the plain disjunction of the two matching
    predicates: its result is truthy exactly when one of them is, and when
    both return booleans it is [true] if and only if
    [containsSelectedAllergen] is [true] or [containsSelectedPreference]
    is [true]. *)
Theorem showMatch_is_disjunction (meal : Meal) :
  truthy (showMatch' meal)
  = truthy (containsSelectedAllergen (allergens meal) allergenSelection)
    || truthy (containsSelectedPreference (flags meal) preferencesSelection)
  /\ (forall a p : bool,
        containsSelectedAllergen (allergens meal) allergenSelection = JBool a ->
        containsSelectedPreference (flags meal) preferencesSelection = JBool p ->
        (showMatch' meal = JBool true <->
         containsSelectedAllergen (allergens meal) allergenSelection = JBool true
         \/ containsSelectedPreference (flags meal) preferencesSelection
            = JBool true)).
Proof.
  unfold showMatch, js_or, js_and, js_not. split.
  - destruct (truthy (containsSelectedAllergen _ _)) eqn:Ea; simpl.
    + by rewrite Ea.
    + destruct (truthy (containsSelectedPreference _ _)) eqn:Ep; simpl; done.
  - intros a p -> ->. simpl. destruct a, p; simpl; split;
      intros H; try done; (try by left); (try by right).
    destruct H; discriminate.
Qed.

Lemma has_items_nil {A} (l : list A) : has_items l = false <-> l = [].
Proof. destruct l; simpl; split; intros H; done. Qed.

Lemma keyed_meals (prefix : string) (l : list Meal) :
  map fst (keyed prefix l) = l.
Proof.
  unfold keyed.
  assert (forall key : nat -> string,
             map fst (imap (fun idx meal => (meal, key idx)) l) = l) as H.
  { induction l as [|m l IH]; intros key; simpl; [done|].
    f_equal. apply (IH (key ∘ S)). }
  apply (H (fun idx => prefix +:+ index_key idx)).
Qed.

Lemma rendered_lists_app (v1 v2 : list DayBlock) :
  rendered_lists (v1 ++ v2) = rendered_lists v1 ++ rendered_lists v2.
Proof. unfold rendered_lists. by rewrite map_app, concat_app. Qed.

Lemma rendered_lists_no_data (c : bool) (msg : string) :
  rendered_lists (when c (NoMealInfo msg)) = [].
Proof. by destruct c. Qed.

Lemma filter_nonempty_group (P Q : Meal -> Prop)
    `{!forall x, Decision (P x)} `{!forall x, Decision (Q x)} (l : list Meal) :
  filter P l = [] -> filter Q (filter P l) = [].
Proof. by intros ->. Qed.

Lemma lists_of_when (c : bool) (k p : string) (l : list Meal) :
  map (fun ml => map fst (entries ml)) (when c (mkMealList k (keyed p l)))
  = when c l.
Proof. destruct c; simpl; by rewrite ?keyed_meals. Qed.

Lemma filter_has_items_cons {A} (l : list A) (ls : list (list A)) :
  filter (fun l => has_items l = true) (l :: ls)
  = when (has_items l) l ++ filter (fun l => has_items l = true) ls.
Proof. by destruct l. Qed.

(** One restaurant block with two sub-lists renders the non-empty ones. *)
Lemma rendered_block2 (group l1 l2 : list Meal) h k1 p1 k2 p2 :
  (group = [] -> l1 = [] /\ l2 = []) ->
  rendered_lists
    (when (has_items group)
       (RestaurantBlock h
          (when (has_items l1) (mkMealList k1 (keyed p1 l1))
           ++ when (has_items l2) (mkMealList k2 (keyed p2 l2)))))
  = filter (fun l => has_items l = true) [l1; l2].
Proof.
  intros Hg. destruct (has_items group) eqn:E.
  - unfold when at 1. unfold rendered_lists. cbn [map concat block_lists].
    rewrite app_nil_r, map_app, !lists_of_when.
    by rewrite !filter_has_items_cons, filter_nil, app_nil_r.
  - apply has_items_nil in E. destruct (Hg E) as [-> ->]. reflexivity.
Qed.

Lemma rendered_block1 (group l1 : list Meal) h k1 p1 :
  (group = [] -> l1 = []) ->
  rendered_lists
    (when (has_items group)
       (RestaurantBlock h
          (when (has_items l1) (mkMealList k1 (keyed p1 l1)))))
  = filter (fun l => has_items l = true) [l1].
Proof.
  intros Hg. destruct (has_items group) eqn:E.
  - unfold when at 1. unfold rendered_lists. cbn [map concat block_lists].
    rewrite app_nil_r, !lists_of_when.
    by rewrite !filter_has_items_cons, filter_nil, app_nil_r.
  - apply has_items_nil in E. rewrite (Hg E). reflexivity.
Qed.

Lemma sublist_as_nested_filter (r kind : string) (want : bool) (day : FoodDay) :
  filter (fun x => Bool.eqb (category_includes kind x) want = true)
         (filter (fun x => is_restaurant r x = true) (meals day))
  = sublist_of r kind want day.
Proof.
  unfold sublist_of. rewrite list_filter_filter. apply list_filter_iff.
  intros x. unfold selects, is_restaurant, category_includes.
  rewrite andb_true_iff. tauto.
Qed.

Lemma filter_want_true (kind : string) (l : list Meal) :
  filter (fun x => category_includes kind x = true) l
  = filter (fun x => Bool.eqb (category_includes kind x) true = true) l.
Proof.
  apply list_filter_iff. intros x. by destruct (category_includes kind x).
Qed.

Lemma filter_want_false (kind : string) (l : list Meal) :
  filter (fun x => negb (category_includes kind x) = true) l
  = filter (fun x => Bool.eqb (category_includes kind x) false = true) l.
Proof.
  apply list_filter_iff. intros x. by destruct (category_includes kind x).
Qed.

(** The rendered sub-lists are the non-empty ones among the seven selected
    sub-lists, in order. *)
Lemma rendered_lists_renderMealDay (day : FoodDay) :
  rendered_lists (renderMealDay t day)
  = filter (fun l => has_items l = true) (sublists day).
Proof.
  unfold renderMealDay. rewrite !rendered_lists_app, rendered_lists_no_data.
  rewrite !filter_want_true, !filter_want_false.
  rewrite !rendered_block2, rendered_block1
    by (intros H; rewrite H; done).
  rewrite !sublist_as_nested_filter, app_nil_r.
  unfold sublists, selectors. simpl map.
  rewrite <- !filter_app. done.
Qed.

Lemma elem_of_sublist (r kind : string) (want : bool) (day : FoodDay) (m : Meal) :
  m ∈ sublist_of r kind want day <->
  m ∈ meals day /\ restaurant m = r
  /\ str_includes kind (category m) = want.
Proof.
  unfold sublist_of. rewrite list_elem_of_filter. unfold selects.
  rewrite andb_true_iff, String.eqb_eq, Bool.eqb_true_iff. tauto.
Qed.

(** A meal of the Ingolstadt cafeteria, of Reimanns or of Canisius is
    selected by exactly one sub-list. *)
Lemma placements_one (m : Meal) :
  restaurant m = "IngolstadtMensa" \/ restaurant m = "Reimanns"
  \/ restaurant m = "Canisius" ->
  placements m = 1.
Proof.
  unfold placements, selectors, selects.
  intros [H|[H|H]]; rewrite !filter_cons, filter_nil; simpl; rewrite H; simpl;
    destruct (str_includes "soup" (category m)),
             (str_includes "salad" (category m)); reflexivity.
Qed.

(** A meal of the Neuburg cafeteria is selected by one sub-list when its
    category does not contain ['soup'], and by none when it does. *)
Lemma placements_neuburg (m : Meal) :
  restaurant m = "NeuburgMensa" ->
  placements m = if str_includes "soup" (category m) then 0 else 1.
Proof.
  unfold placements, selectors, selects.
  intros H; rewrite !filter_cons, filter_nil; simpl; rewrite H; simpl.
  destruct (str_includes "soup" (category m)),
           (str_includes "salad" (category m)); reflexivity.
Qed.

(** A meal of any other restaurant is selected by no sub-list. *)
Lemma placements_other (m : Meal) :
  restaurant m ∉ four_restaurants -> placements m = 0.
Proof.
  unfold placements, selectors, selects, four_restaurants. intros H.
  rewrite !not_elem_of_cons in H. destruct H as (H1 & H2 & H3 & H4 & _).
  apply String.eqb_neq in H1, H2, H3, H4.
  rewrite !filter_cons, filter_nil; simpl. rewrite H1, H2, H3, H4.
  reflexivity.
Qed.

Lemma shows_no_data_app (v1 v2 : list DayBlock) :
  shows_no_data (v1 ++ v2) = shows_no_data v1 || shows_no_data v2.
Proof. unfold shows_no_data. apply existsb_app. Qed.

Lemma shows_no_data_block (c : bool) h ls :
  shows_no_data (when c (RestaurantBlock h ls)) = false.
Proof. by destruct c. Qed.

Lemma length_zero_group (r : string) (l : list Meal) :
  (length (filter (fun x => is_restaurant r x = true) l) =? 0)%nat = true <->
  forall m, m ∈ l -> restaurant m <> r.
Proof.
  rewrite Nat.eqb_eq, length_zero_iff_nil. split.
  - intros Hnil m Hm Hr.
    eapply (filter_nil_not_elem_of _ _ m Hnil); [|done].
    unfold is_restaurant. by apply String.eqb_eq.
  - intros H. destruct (filter _ l) as [|m l'] eqn:E; [done|].
    assert (m ∈ filter (fun x => is_restaurant r x = true) l) as Hm
      by (rewrite E; left).
    apply list_elem_of_filter in Hm as [Hr Hm].
    unfold is_restaurant in Hr. apply String.eqb_eq in Hr.
    by destruct (H m Hm).
Qed.

(** The no-data message is shown exactly when the day has no meal of any
    of the four restaurants. *)
Lemma shows_no_data_renderMealDay (day : FoodDay) :
  shows_no_data (renderMealDay t day) = true <->
  forall m, m ∈ meals day -> restaurant m ∉ four_restaurants.
Proof.
  unfold renderMealDay. rewrite !shows_no_data_app, !shows_no_data_block.
  simpl. destruct (_ && _) eqn:E; simpl.
  - split; [intros _|done].
    rewrite !andb_true_iff, !length_zero_group in E.
    destruct E as (((H1 & H2) & H3) & H4). intros m Hm.
    unfold four_restaurants. rewrite !not_elem_of_cons.
    repeat split; eauto using not_elem_of_nil.
  - split; [done|]. intros H. exfalso.
    assert ((forall m, m ∈ meals day -> restaurant m <> "IngolstadtMensa")
            /\ (forall m, m ∈ meals day -> restaurant m <> "Reimanns")
            /\ (forall m, m ∈ meals day -> restaurant m <> "Canisius")
            /\ (forall m, m ∈ meals day -> restaurant m <> "NeuburgMensa"))
      as (H1 & H2 & H3 & H4).
    { repeat split; intros m Hm Hr; apply (H m Hm); rewrite Hr;
        unfold four_restaurants; set_solver. }
    apply length_zero_group in H1, H2, H3, H4.
    rewrite H1, H2, H3, H4 in E. discriminate.
Qed.

(** C7: soups of the Neuburg cafeteria are dropped.  On a day whose only meal is a soup of the Neuburg
    cafeteria, the view consists of the Neuburg header alone: the meal is
    selected by no sub-list and rendered in none, and the no-data message
    is not shown either. *)
Theorem neuburg_soup_is_rendered_nowhere :
  renderMealDay t neuburg_soup_day
  = [RestaurantBlock (t "list.titles.neuburg") []]
  /\ rendered_lists (renderMealDay t neuburg_soup_day) = []
  /\ placements neuburg_soup = 0
  /\ shows_no_data (renderMealDay t neuburg_soup_day) = false.
Proof. repeat split; reflexivity. Qed.

End MealPlanFacts.

(** ** Dashboard card for CL events *)

Lemma slice_first_two {A} (l : list A) : slice 0 (Some 2%Z) l = take 2 l.
Proof.
  unfold slice, slice_bound.
  change (0 <? 0)%Z with false. change (2 <? 0)%Z with false. cbv iota zeta.
  replace (Z.to_nat (Z.min 0 (Z.of_nat (length l)))) with 0%nat by lia.
  replace (Z.to_nat (Z.min 2 (Z.of_nat (length l))
                     - Z.min 0 (Z.of_nat (length l))))
    with (Nat.min 2 (length l)) by lia.
  destruct l as [|a [|b l]]; reflexivity.
Qed.

(** C8.  For every list of events delivered by [getCampusLifeEvents], the
    card renders the first two entries in their original order, each with
    its title and its organizer: both when the list has two or more
    entries, all of them when it has fewer. *)
Theorem EventsCard_shows_first_two
    (t : string -> string) (clEvents previous : list CLEvent) :
  let card := EventsCard t (load (Return clEvents) previous) in
  length card = Nat.min 2 (length clEvents)
  /\ (forall i, card !! i =
        (fun x => mkEventItem i (title x)
                    (t "events.organizer.attribute" +:+ " " +:+ organizer x))
        <$> (take 2 clEvents !! i))
  /\ map item_title card = map title (take 2 clEvents)
  /\ (2 <= length clEvents -> length card = 2)
  /\ (length clEvents < 2 -> map item_title card = map title clEvents
                             /\ length card = length clEvents).
Proof.
  intros card. subst card. unfold EventsCard, load.
  rewrite slice_first_two.
  assert (map item_title
            (imap (fun i x => mkEventItem i (title x)
                     (t "events.organizer.attribute" +:+ " " +:+ organizer x))
                  (take 2 clEvents))
          = map title (take 2 clEvents)) as Htitles.
  { destruct clEvents as [|a [|b l]]; reflexivity. }
  repeat split.
  - by rewrite length_imap, length_take.
  - intros i. apply list_lookup_imap.
  - exact Htitles.
  - intros H. rewrite length_imap, length_take. lia.
  - rewrite Htitles. by rewrite take_ge by lia.
  - rewrite length_imap, length_take. lia.
Qed.

Lemma EventsCard_shows_first_two_witness :
  2 <= length [mkCLEvent "1" "Neuland" "Hackathon" "b" "e";
               mkCLEvent "2" "AStA" "Campus run" "b" "e";
               mkCLEvent "3" "Fachschaft" "Quiz" "b" "e"]
  /\ length (EventsCard (fun key => key)
               [mkCLEvent "1" "Neuland" "Hackathon" "b" "e";
                mkCLEvent "2" "AStA" "Campus run" "b" "e";
                mkCLEvent "3" "Fachschaft" "Quiz" "b" "e"]) = 2.
Proof.
  split; [simpl; lia|].
  eapply (EventsCard_shows_first_two (fun key => key) _ []). simpl. lia.
Defined.

(** ** GraphQL client *)

Section NeulandAPIFacts.

Context {Net : Type}.
Variable request : string -> string -> M Net JSValue.
Variable env_endpoint : option string.

Local Abbreviation endpoint := (GRAPHQL_ENDPOINT env_endpoint).
Local Abbreviation run_query' := (run_query request env_endpoint).

(** What one attempt against the endpoint makes of the state. *)
Lemma performGraphQLQuery_attempt (query : string) (st : GraphQLState Net) :
  performGraphQLQuery request env_endpoint query st
  = (match fst (request endpoint query (net st)) with
     | Return data => Return data
     | Throw _ => Throw (Error "GraphQL query failed")
     end,
     mkGraphQL (snd (request endpoint query (net st)))
               (attempts st ++ [(endpoint, query)])).
Proof.
  unfold performGraphQLQuery, try_catch, bindM, graphql_request, ret, throw.
  by destruct (request endpoint query (net st)) as [[data|e] n'].
Qed.

Lemma run_query_performs (c : QueryCall) :
  run_query' c = performGraphQLQuery request env_endpoint (query_of c).
Proof. by destruct c. Qed.

(** C6.  Every query method issues exactly one request attempt against the
    single endpoint: the result is the response data exactly when that
    attempt succeeds, and the error ['GraphQL query failed'] when it fails,
    with no second attempt; nothing is cached, so a repeated identical call
    issues a fresh request. *)
Theorem graphql_one_attempt_per_call (c : QueryCall) (st : GraphQLState Net) :
  attempts (snd (run_query' c st)) = attempts st ++ [(endpoint, query_of c)]
  /\ net (snd (run_query' c st))
     = snd (request endpoint (query_of c) (net st))
  /\ fst (run_query' c st)
     = match fst (request endpoint (query_of c) (net st)) with
       | Return data => Return data
       | Throw _ => Throw (Error "GraphQL query failed")
       end
  /\ (forall data,
        fst (run_query' c st) = Return data <->
        fst (request endpoint (query_of c) (net st)) = Return data)
  /\ attempts (snd (run_query' c (snd (run_query' c st))))
     = attempts st ++ [(endpoint, query_of c); (endpoint, query_of c)].
Proof.
  rewrite run_query_performs, !performGraphQLQuery_attempt. simpl.
  repeat split; try done.
  - destruct (fst (request endpoint (query_of c) (net st))); [done|].
    discriminate.
  - destruct (fst (request endpoint (query_of c) (net st))); [done|].
    discriminate.
  - by rewrite <- app_assoc.
Qed.

End NeulandAPIFacts.

(** With a backend that always fails, [getCampusLifeEvents] makes one
    attempt and throws. *)
Example getCampusLifeEvents_failure :
  getCampusLifeEvents failing_graphql None (mkGraphQL tt [])
  = (Throw (Error "GraphQL query failed"),
     mkGraphQL tt [("https://api.neuland.app/graphql",
                    getCampusLifeEvents_query)]).
Proof. reflexivity. Qed.

Lemma showMatch_is_disjunction_witness :
  (fun flags _ : JSValue => JBool (truthy flags))
    (flags (mkMeal "7" "Reimanns" "main" JNull (JArr [JStr "V"]))) (JObj [])
  = JBool true
  /\ showMatch (fun allergens _ => JBool (truthy allergens))
               (fun flags _ => JBool (truthy flags))
               (JObj []) (JObj [])
               (mkMeal "7" "Reimanns" "main" JNull (JArr [JStr "V"]))
     = JBool true.
Proof.
  split; [reflexivity|].
  destruct (showMatch_is_disjunction
              (fun allergens _ => JBool (truthy allergens))
              (fun flags _ => JBool (truthy flags))
              (JObj []) (JObj [])
              (mkMeal "7" "Reimanns" "main" JNull (JArr [JStr "V"])))
    as [_ Hbool].
  apply (Hbool false true); [reflexivity|reflexivity|].
  right. reflexivity.
Defined.

(** * Further properties of the clients and pages *)

From Stdlib Require Import DecimalNat.

(** ** String facts used for cache keys *)

Lemma append_length (s t : string) :
  String.length (s +:+ t) = String.length s + String.length t.
Proof. induction s as [|c s IH]; simpl; [done|]. by rewrite IH. Qed.

Ltac length_clash H :=
  apply (f_equal String.length) in H; simpl in H;
  repeat rewrite append_length in H; simpl in H; lia.

Lemma append_inv_tail (s1 s2 t : string) : s1 +:+ t = s2 +:+ t -> s1 = s2.
Proof.
  revert s2. induction s1 as [|a s1 IH]; intros [|b s2] H; simpl in H.
  - done.
  - length_clash H.
  - length_clash H.
  - injection H as -> H. f_equal. by apply IH.
Qed.

Lemma true_false_suffix (s1 s2 : string) :
  s1 +:+ "-true" <> s2 +:+ "-false".
Proof.
  revert s1. induction s2 as [|c s2 IH]; intros s1 H.
  - destruct s1 as [|a [|b s1]]; simpl in H; try discriminate.
    length_clash H.
  - destruct s1 as [|a s1]; simpl in H.
    + length_clash H.
    + injection H as _ H. by apply (IH s1).
Qed.

Section ClientMore.

Context {World : Type}.
Variable request : JSValue -> M World JSValue.
Variable sessionHandler : (JSValue -> M World JSValue) -> M World JSValue.
Variable courseShortNames : list (string * TableValue).
Context {Date : Type}.
Variable toDateString : Date -> string.
Variables getDate getMonth getFullYear : Date -> Z.

Local Abbreviation requestAuthenticated' :=
  (requestAuthenticated request sessionHandler).
Local Abbreviation requestCached' := (requestCached request sessionHandler).
Local Abbreviation run_op' :=
  (run_op request sessionHandler courseShortNames
          toDateString getDate getMonth getFullYear).
Local Abbreviation getTimetable' :=
  (getTimetable request sessionHandler
                toDateString getDate getMonth getFullYear).
Local Abbreviation getPersonalData' :=
  (getPersonalData request sessionHandler).
Local Abbreviation getFaculty' :=
  (getFaculty request sessionHandler courseShortNames).
Local Abbreviation getSpoName' := (getSpoName request sessionHandler).
Local Abbreviation getImprint' := (getImprint request sessionHandler).

Lemma stateless_ret {A} (a : A) : stateless (@ret (ClientState World) A a).
Proof. by intros st. Qed.

Lemma stateless_throw {A} e : stateless (@throw (ClientState World) A e).
Proof. by intros st. Qed.

Lemma stateless_lift {A} (o : Outcome A) :
  stateless (@lift (ClientState World) A o).
Proof. by intros st. Qed.

Lemma bind_stateless_state {A B} (m : M (ClientState World) A)
    (f : A -> M (ClientState World) B) st :
  (forall a, stateless (f a)) -> snd (bindM m f st) = snd (m st).
Proof.
  intros Hf. unfold bindM. destruct (m st) as [[a|e] s1]; simpl; [|done].
  apply Hf.
Qed.

Lemma try_stateless_state {A} (body : M (ClientState World) A) handler st :
  (forall e, stateless (handler e)) -> snd (try_catch body handler st) = snd (body st).
Proof.
  intros Hh. unfold try_catch. destruct (body st) as [[a|e] s1]; simpl; [done|].
  apply Hh.
Qed.

Lemma stateless_bind {A B} (m : M (ClientState World) A)
    (f : A -> M (ClientState World) B) :
  stateless m -> (forall a, stateless (f a)) -> stateless (bindM m f).
Proof. intros Hm Hf st. rewrite bind_stateless_state by done. apply Hm. Qed.

Ltac stateless_tac :=
  repeat first
    [ apply stateless_ret | apply stateless_throw | apply stateless_lift
    | apply stateless_bind; [|intros ?]
    | match goal with
      | |- stateless (if ?b then _ else _) => destruct b
      | |- forall _, stateless _ => intros ?
      end ].

(** The state an operation leaves behind is the one its single cached or
    authenticated request leaves behind. *)
Lemma run_op_state (op : ClientOp) (st : ClientState World) :
  match method_key toDateString op with
  | Some k => exists params,
      snd (run_op' op st) = snd (requestCached' k params st)
  | None => exists params,
      snd (run_op' op st) = snd (requestAuthenticated' params st)
  end.
Proof.
  destruct op; simpl; eexists;
    unfold getPersonalData, getFaculty, getSpoName, getTimetable,
      getTimetable_try, getExams, getExams_try, getGrades, getMensaPlan,
      getFreeRooms, getCampusParkingData, getPersonalLecturers, getLecturers,
      getImprint, getPersonalData;
    rewrite ?try_stateless_state, ?bind_stateless_state by stateless_tac;
    reflexivity.
Qed.

Lemma requestCached_log k params (st : ClientState World) :
  authLog (snd (requestCached' k params st))
  = if truthy (cache_lookup (cache st) k) then authLog st
    else authLog st ++ [params].
Proof.
  destruct (truthy (cache_lookup (cache st) k)) eqn:E.
  - by rewrite requestCached_hit.
  - rewrite requestCached_miss by done.
    pose proof (requestAuthenticated_log request sessionHandler params st) as H.
    by destruct (requestAuthenticated' params st) as [[resp|e] st1].
Qed.



(** X1.  No operation of the client retries: each one starts at most one
    authenticated request. *)
Theorem at_most_one_request_per_operation
    (op : ClientOp) (st : ClientState World) :
  authLog (snd (run_op' op st)) = authLog st
  \/ exists params, authLog (snd (run_op' op st)) = authLog st ++ [params].
Proof.
  pose proof (run_op_state op st) as H.
  destruct (method_key toDateString op) as [k|]; destruct H as [params ->].
  - rewrite requestCached_log. destruct (truthy _); eauto.
  - right. exists params. apply requestAuthenticated_log.
Qed.

Lemma app_singleton_neq {A} (l : list A) (x : A) : l ++ [x] <> l.
Proof.
  intros H. apply (f_equal length) in H. rewrite length_app in H.
  simpl in H. lia.
Qed.

(** X2.  An operation that starts no authenticated request changes
    nothing: cache, outside world and request log are as before. *)
Theorem no_request_no_change (op : ClientOp) (st : ClientState World) :
  authLog (snd (run_op' op st)) = authLog st -> snd (run_op' op st) = st.
Proof.
  pose proof (run_op_state op st) as H.
  destruct (method_key toDateString op) as [k|]; destruct H as [params ->].
  - rewrite requestCached_log.
    destruct (truthy (cache_lookup (cache st) k)) eqn:E.
    + intros _. by rewrite requestCached_hit.
    + intros H. by apply app_singleton_neq in H.
  - rewrite requestAuthenticated_log. intros H.
    by apply app_singleton_neq in H.
Qed.

Lemma requestCached_other_key k k' params (st : ClientState World) :
  k <> k' ->
  cache (snd (requestCached' k params st)) !! k' = cache st !! k'.
Proof.
  intros Hne. destruct (truthy (cache_lookup (cache st) k)) eqn:E.
  - by rewrite requestCached_hit.
  - rewrite requestCached_miss by done.
    pose proof (requestAuthenticated_cache request sessionHandler params st)
      as Hc.
    destruct (requestAuthenticated' params st) as [[resp|e] st1]; simpl in *.
    + unfold cache_store. rewrite lookup_insert_ne by done. by rewrite Hc.
    + by rewrite Hc.
Qed.

(** X3.  An operation only writes the cache entry of its own key: every
    other key keeps its entry, present or absent; [getImprint] and
    [requestAuthenticated] write no entry at all. *)
Theorem operation_writes_only_its_key
    (op : ClientOp) (st : ClientState World) (k' : string) :
  method_key toDateString op <> Some k' ->
  cache (snd (run_op' op st)) !! k' = cache st !! k'.
Proof.
  intros Hk. pose proof (run_op_state op st) as H.
  destruct (method_key toDateString op) as [k|]; destruct H as [params ->].
  - apply requestCached_other_key. congruence.
  - by rewrite requestAuthenticated_cache.
Qed.

(** X4.  [getImprint] bypasses the cache: every call starts an
    authenticated request, also right after a successful one, and the
    cache stays as it is. *)
Theorem getImprint_bypasses_cache (st : ClientState World) :
  cache (snd (getImprint' st)) = cache st
  /\ authLog (snd (getImprint' (snd (getImprint' st))))
     = authLog st
       ++ [[("service", JStr "thiapp"); ("method", JStr "impressum");
            ("format", JStr "json")];
           [("service", JStr "thiapp"); ("method", JStr "impressum");
            ("format", JStr "json")]].
Proof.
  unfold getImprint. split.
  - apply requestAuthenticated_cache.
  - rewrite !requestAuthenticated_log. by rewrite <- app_assoc.
Qed.

(** X5.  The cache keys of different methods never coincide, except
    that [getPersonalData], [getFaculty] and [getSpoName] share the
    personal-data key: when two operations other than the generic entry
    points store under the same key, they are calls of the same method or
    both among those three. *)
Theorem method_keys_disjoint (op1 op2 : @ClientOp Date) (k : string) :
  is_generic op1 = false -> is_generic op2 = false ->
  method_key toDateString op1 = Some k ->
  method_key toDateString op2 = Some k ->
  method_name op1 = method_name op2
  \/ (reads_personal_data op1 = true /\ reads_personal_data op2 = true).
Proof.
  intros G1 G2 H1 H2. rewrite <- H2 in H1. clear H2.
  destruct op1, op2; simpl in *; try discriminate;
    first [by left | by right].
Qed.

(** X6.  The timetable key determines the calendar day and the [detailed]
    flag: a detailed and a plain timetable of the same day never share a
    cache entry. *)
Theorem timetable_key_injective (d1 d2 : Date) (b1 b2 : bool) :
  timetable_key toDateString d1 b1 = timetable_key toDateString d2 b2 ->
  toDateString d1 = toDateString d2 /\ b1 = b2.
Proof.
  unfold timetable_key. simpl. intros H. injection H as H.
  change (toDateString d1 +:+ "-" +:+ bool_str b1
          = toDateString d2 +:+ "-" +:+ bool_str b2) in H.
  destruct b1, b2;
    change ("-" +:+ bool_str true) with "-true" in H;
    change ("-" +:+ bool_str false) with "-false" in H.
  - split; [|done]. by apply append_inv_tail in H.
  - by apply true_false_suffix in H.
  - symmetry in H. by apply true_false_suffix in H.
  - split; [|done]. by apply append_inv_tail in H.
Qed.

(** X7.  For one-character range bounds, as the method documents them,
    the lecturers key determines both bounds. *)
Theorem lecturers_key_injective (from1 to1 from2 to2 : string) :
  String.length from1 = 1 -> String.length from2 = 1 ->
  KEY_GET_LECTURERS +:+ "-" +:+ from1 +:+ "-" +:+ to1
  = KEY_GET_LECTURERS +:+ "-" +:+ from2 +:+ "-" +:+ to2 ->
  from1 = from2 /\ to1 = to2.
Proof.
  intros L1 L2 H.
  destruct from1 as [|a [|? ?]]; try discriminate.
  destruct from2 as [|b [|? ?]]; try discriminate.
  change (KEY_GET_LECTURERS +:+ "-" +:+ String a (String "-" to1)
          = KEY_GET_LECTURERS +:+ "-" +:+ String b (String "-" to2)) in H.
  apply (inj (String.app _)) in H. injection H as -> ->. done.
Qed.

(** X8.  Whatever [getTimetable] returns is an object with a [timetable]
    property, and it is one of two objects: the three fields read from the
    response of the cached request, or the empty timetable after one of
    the two known errors. *)
Theorem getTimetable_returns_timetable
    (date : Date) (detailed : bool) (st st' : ClientState World) (v : JSValue) :
  getTimetable' date detailed st = (Return v, st') ->
  ((exists res semester holidays timetable,
       requestCached' (timetable_key toDateString date detailed)
                      (timetable_params getDate getMonth getFullYear
                                        date detailed) st
       = (Return res, st')
       /\ get_index res 0 = Return semester
       /\ get_index res 1 = Return holidays
       /\ get_index res 2 = Return timetable
       /\ v = JObj [("semester", semester); ("holidays", holidays);
                    ("timetable", timetable)])
   \/ (exists e,
         getTimetable_try request sessionHandler
           toDateString getDate getMonth getFullYear date detailed st
         = (Throw e, st')
         /\ (exn_data e = JStr "Query not possible"
             \/ exn_data e = JStr "Time table does not exist")
         /\ v = JObj [("timetable", JArr [])]))
  /\ exists props, v = JObj props /\ "timetable" ∈ map fst props.
Proof.
  intros Hget.
  assert ((exists res semester holidays timetable,
              requestCached' (timetable_key toDateString date detailed)
                             (timetable_params getDate getMonth getFullYear
                                               date detailed) st
              = (Return res, st')
              /\ get_index res 0 = Return semester
              /\ get_index res 1 = Return holidays
              /\ get_index res 2 = Return timetable
              /\ v = JObj [("semester", semester); ("holidays", holidays);
                           ("timetable", timetable)])
          \/ (exists e,
                getTimetable_try request sessionHandler
                  toDateString getDate getMonth getFullYear date detailed st
                = (Throw e, st')
                /\ (exn_data e = JStr "Query not possible"
                    \/ exn_data e = JStr "Time table does not exist")
                /\ v = JObj [("timetable", JArr [])])) as Hcases.
  { revert Hget.
    unfold getTimetable, try_catch, getTimetable_try, bindM, lift, ret, throw.
    destruct (requestCached' _ _ st) as [[res|e] s1].
    - destruct (get_index res 0) as [semester|e0] eqn:E0.
      + assert (exists h, get_index res 1 = Return h) as [h Eh].
        { destruct res; simpl in *; try discriminate; eauto. }
        assert (exists tt, get_index res 2 = Return tt) as [tt Et].
        { destruct res; simpl in *; try discriminate; eauto. }
        rewrite Eh, Et. intros H. inversion H; subst. left.
        exists res, semester, h, tt. done.
      + destruct (_ || _) eqn:Ek; intros H; inversion H; subst.
        right. exists e0. split; [done|]. split; [|done].
        apply orb_true_iff in Ek. by rewrite !strict_equals_str in Ek.
    - destruct (_ || _) eqn:Ek; intros H; inversion H; subst.
      right. exists e. split; [done|]. split; [|done].
      apply orb_true_iff in Ek. by rewrite !strict_equals_str in Ek. }
  split; [exact Hcases|].
  destruct Hcases as [(res & s & h & tt & _ & _ & _ & _ & ->)|(e & _ & _ & ->)];
    eexists; (split; [done|]); simpl; set_solver.
Qed.


End ClientMore.

(** ** Faculty and SPO extraction *)

Lemma find_m_result (p : string -> Outcome bool) (l : list string) v :
  find_m p l = Return v ->
  v = JUndefined \/ exists x, v = JStr x /\ x ∈ l /\ p x = Return true.
Proof.
  induction l as [|x l IH]; simpl; intros H.
  - left. congruence.
  - destruct (p x) as [[|]|e] eqn:E; simpl in H; [| |done].
    + right. exists x. inversion H. repeat split; [left|done].
    + destruct (IH H) as [->|(y & -> & Hy & Hp)]; [by left|].
      right. exists y. repeat split; [by right|done].
Qed.

Lemma find_m_finds (p : string -> Outcome bool) (l : list string) x :
  (forall y, y ∈ l -> exists b, p y = Return b) ->
  x ∈ l -> p x = Return true ->
  exists y, find_m p l = Return (JStr y) /\ y ∈ l /\ p y = Return true.
Proof.
  induction l as [|z l IH]; simpl; intros Htot Hx Hp.
  - by apply elem_of_nil in Hx.
  - destruct (Htot z) as [[|] Hz]; [left| |]; rewrite Hz; simpl.
    + exists z. repeat split; [left|done].
    + apply elem_of_cons in Hx as [->|Hx]; [congruence|].
      destruct IH as (y & Hy & Hin & Hpy); [|done|done|].
      { intros y Hy. apply Htot. by right. }
      exists y. repeat split; [done|by right|done].
Qed.

(** X10.  The faculty helper answers [null] exactly when the payload lacks
    the needed fields: no payload, no [persdata], or neither [stg] nor
    [po_url]. *)
Theorem extractFaculty_null_iff
    (table : list (string * TableValue)) (data : JSValue) :
  extractFacultyFromPersonalData table data = Return JNull <->
  truthy data = false
  \/ exists persdata,
       get_prop data "persdata" = Return persdata
       /\ (truthy persdata = false
           \/ exists stg po_url,
                get_prop persdata "stg" = Return stg
                /\ get_prop persdata "po_url" = Return po_url
                /\ truthy stg = false /\ truthy po_url = false).
Proof.
  unfold extractFacultyFromPersonalData.
  destruct (truthy data) eqn:Ed; cbn [negb]; [|split; eauto].
  destruct (get_prop data "persdata") as [persdata|e] eqn:Ep; cbn [bindO].
  2:{ split; [done|]. intros [?|(pd & ? & _)]; discriminate. }
  destruct (truthy persdata) eqn:Et; cbn [negb].
  2:{ split; [|done]. intros _. right. exists persdata. eauto. }
  destruct (get_prop persdata "stg") as [stg|e] eqn:Es; cbn [bindO].
  2:{ split; [done|]. intros [?|(pd & Hpd & [?|(s & p & H & _)])];
        [discriminate| |]; inversion Hpd; subst; congruence. }
  destruct (get_prop persdata "po_url") as [po|e] eqn:Eo; cbn [bindO].
  2:{ split; [done|]. intros [?|(pd & Hpd & [?|(s & p & _ & H & _)])];
        [discriminate| |]; inversion Hpd; subst; congruence. }
  destruct (truthy stg) eqn:Ets; destruct (truthy po) eqn:Etp; cbn [negb andb].
  4:{ split; [|done]. intros _. right. exists persdata. split; [done|].
      right. exists stg, po. done. }
  all: split;
    [|intros [?|(pd & Hpd & [?|(s & p & Hs & Hp & Hts & Htp)])];
      [discriminate| |]; inversion Hpd; subst; congruence].
  all: intros H; exfalso.
  all: destruct (js_split po) as [parts|e]; cbn [bindO] in H; [|done].
  all: match type of H with
       | context [find_m ?p ?l] =>
           destruct (find_m p l) as [m|e] eqn:Em; cbn [bindO] in H; [|done];
           apply find_m_result in Em
       end.
  all: destruct (truthy m) eqn:Etm;
    [ destruct Em as [->|(x & -> & _)]; discriminate
    | apply find_m_result in H as [?|(x & ? & _)]; discriminate ].
Qed.

(** X11.  Whenever the payload passes the guard and its [po_url] is not a
    string, the faculty helper throws a [TypeError], whatever the table
    and the course short name are. *)
Theorem extractFaculty_needs_string_po_url
    (table : list (string * TableValue)) (data persdata stg po_url : JSValue) :
  truthy data = true ->
  get_prop data "persdata" = Return persdata ->
  truthy persdata = true ->
  get_prop persdata "stg" = Return stg ->
  get_prop persdata "po_url" = Return po_url ->
  truthy stg || truthy po_url = true ->
  (forall url, po_url <> JStr url) ->
  extractFacultyFromPersonalData table data = Throw TypeError.
Proof.
  intros Hd Hp Ht Hs Ho Hg Hns. unfold extractFacultyFromPersonalData.
  rewrite Hd. cbn [negb]. rewrite Hp. cbn [bindO]. rewrite Ht. cbn [negb].
  rewrite Hs. cbn [bindO]. rewrite Ho. cbn [bindO].
  replace (negb (truthy stg) && negb (truthy po_url)) with false
    by (destruct (truthy stg), (truthy po_url); done).
  destruct po_url; try reflexivity. by destruct (Hns s).
Qed.

Lemma extractFaculty_with_po_url
    (table : list (string * TableValue)) (data persdata stg : JSValue)
    (url : string) :
  truthy data = true ->
  get_prop data "persdata" = Return persdata ->
  truthy persdata = true ->
  get_prop persdata "stg" = Return stg ->
  get_prop persdata "po_url" = Return (JStr url) ->
  truthy stg || truthy (JStr url) = true ->
  extractFacultyFromPersonalData table data
  = (let faculties := filter (fun key => not_source key = true)
                             (map fst table) in
     let poKey :=
       head_or_undefined
         (slice (-3) None
            (filter (fun x => nonempty x = true) (split_on slash url))) in
     facultyMatch <~
       find_m (fun faculty =>
                 k <~ entry_poKey (table_get table faculty) ;
                 Return (strict_equals k poKey))
              (filter (fun key => not_source key = true) faculties) ;
     if truthy facultyMatch then Return facultyMatch else
     find_m (fun faculty =>
               entry_courses_includes (table_get table faculty) stg)
            faculties).
Proof.
  intros Hd Hp Ht Hs Ho Hg. unfold extractFacultyFromPersonalData.
  rewrite Hd. cbn [negb]. rewrite Hp. cbn [bindO]. rewrite Ht. cbn [negb].
  rewrite Hs. cbn [bindO]. rewrite Ho. cbn [bindO js_split].
  replace (negb (truthy stg) && negb (truthy (JStr url))) with false; [done|].
  destruct (truthy stg), (truthy (JStr url)); done.
Qed.

(** X12.  A match by PO URL wins over the course short name: when some
    faculty of the table has the PO key of the URL, the helper returns a
    faculty with that PO key, the same one for every [stg]. *)
Theorem po_url_match_wins
    (table : list (string * TableValue)) (url k F : string)
    (cs : list string) :
  faculties_only table ->
  EmptyString ∉ map fst table ->
  po_key_of url = JStr k ->
  F ∈ map fst table -> F <> "_source" ->
  table_get table F = Some (Faculty k cs) ->
  exists F' cs',
    table_get table F' = Some (Faculty k cs')
    /\ F' ∈ map fst table
    /\ forall stg,
         extractFacultyFromPersonalData table (personal_data stg (JStr url))
         = Return (JStr F').
Proof.
  intros Htable Hne Hkey HF Hns Hget.
  assert (truthy (JStr url) = true) as Hurl.
  { destruct url; [|done]. discriminate. }
  set (faculties := filter (fun key => not_source key = true) (map fst table)).
  assert (forall x, x ∈ faculties ->
            exists p c, table_get table x = Some (Faculty p c)) as Hfac.
  { intros x Hx. apply list_elem_of_filter in Hx as [Hx' Hx].
    destruct (table_get_elem_of _ _ Hx) as (v & Hv & Hin).
    unfold not_source in Hx'. apply negb_true_iff, String.eqb_neq in Hx'.
    destruct (Htable _ _ Hin Hx') as (p & c & ->). eauto. }
  assert (F ∈ filter (fun key => not_source key = true) faculties) as HFin.
  { assert (not_source F = true) as HnsF.
    { unfold not_source. by apply negb_true_iff, String.eqb_neq. }
    apply list_elem_of_filter. split; [done|].
    apply list_elem_of_filter. done. }
  destruct (find_m_finds
              (fun faculty =>
                 k0 <~ entry_poKey (table_get table faculty) ;
                 Return (strict_equals k0 (JStr k)))
              (filter (fun key => not_source key = true) faculties) F)
    as (F' & Hfind & HF' & HpF').
  { intros y Hy. apply list_elem_of_filter in Hy as [_ Hy].
    destruct (Hfac y Hy) as (p & c & ->). simpl. eauto. }
  { done. }
  { rewrite Hget. simpl. by rewrite String.eqb_refl. }
  apply list_elem_of_filter in HF' as [_ HF'].
  destruct (Hfac F' HF') as (p & c & HgetF').
  rewrite HgetF' in HpF'. simpl in HpF'. injection HpF' as HpF'.
  apply String.eqb_eq in HpF'. subst p.
  assert (F' ∈ map fst table) as HF'tab.
  { by apply list_elem_of_filter in HF' as [_ HF']. }
  exists F', c. split; [done|]. split; [done|]. intros stg.
  rewrite (extractFaculty_with_po_url table (personal_data stg (JStr url))
             (JObj [("stg", stg); ("po_url", JStr url)]) stg url)
    by first [reflexivity | rewrite Hurl; apply orb_true_r].
  cbv zeta. fold (po_key_of url). rewrite Hkey. fold faculties. rewrite Hfind.
  cbn [bindO].
  assert (truthy (JStr F') = true) as ->; [|done].
  simpl. apply negb_true_iff, String.eqb_neq. intros ->. done.
Qed.

Lemma is_prefix_includes (p s : string) :
  is_prefix p s = true -> str_includes p s = true.
Proof. intros H. destruct s; simpl; by rewrite H. Qed.

Lemma includes_tail (p : string) (a : ascii) (s : string) :
  str_includes p s = true -> str_includes p (String a s) = true.
Proof. intros H. simpl. rewrite H. apply orb_true_r. Qed.

Lemma split_on_tokens (sep : ascii) (s : string) :
  exists tok toks,
    split_on sep s = tok :: toks
    /\ is_prefix tok s = true
    /\ (forall x, x ∈ toks -> str_includes x s = true)
    /\ (forall x, x ∈ tok :: toks ->
          str_includes (String sep EmptyString) x = false).
Proof.
  induction s as [|a s (tok & toks & Hs & Hpre & Hsub & Hsep)]; simpl.
  - exists EmptyString, []. repeat split; try done.
    + intros x Hx. by apply elem_of_nil in Hx.
    + intros x Hx. apply list_elem_of_singleton in Hx. by subst.
  - rewrite Hs. destruct (Ascii.eqb a sep) eqn:E.
    + exists EmptyString, (tok :: toks). repeat split; try done.
      * intros x Hx. apply includes_tail.
        apply elem_of_cons in Hx as [->|Hx]; [by apply is_prefix_includes|].
        by apply Hsub.
      * intros x Hx. apply elem_of_cons in Hx as [->|Hx]; [done|].
        by apply Hsep.
    + exists (String a tok), toks. repeat split; try done.
      * simpl. by rewrite Ascii.eqb_refl.
      * intros x Hx. apply includes_tail. by apply Hsub.
      * intros x Hx. apply elem_of_cons in Hx as [->|Hx].
        -- simpl. rewrite Ascii.eqb_sym, E. simpl.
           apply Hsep. left.
        -- apply Hsep. by right.
Qed.

Lemma split_on_token_facts (sep : ascii) (s x : string) :
  x ∈ split_on sep s ->
  str_includes x s = true /\ str_includes (String sep EmptyString) x = false.
Proof.
  destruct (split_on_tokens sep s) as (tok & toks & -> & Hpre & Hsub & Hsep).
  intros Hx. split; [|by apply Hsep].
  apply elem_of_cons in Hx as [->|Hx]; [by apply is_prefix_includes|].
  by apply Hsub.
Qed.

Lemma str_app_cons (ch : ascii) (a b : string) :
  String ch a +:+ b = String ch (a +:+ b).
Proof. reflexivity. Qed.

Lemma str_app_assoc (a b c : string) : (a +:+ b) +:+ c = a +:+ (b +:+ c).
Proof.
  induction a as [|ch a IH]; [reflexivity|].
  rewrite !str_app_cons. by rewrite IH.
Qed.

Lemma str_app_nil_r (a : string) : a +:+ EmptyString = a.
Proof.
  induction a as [|ch a IH]; [reflexivity|].
  rewrite str_app_cons. by rewrite IH.
Qed.

Lemma only_slashes_app (a b : string) :
  only_slashes (a +:+ b) = only_slashes a && only_slashes b.
Proof.
  induction a as [|ch a IH]; [done|].
  rewrite str_app_cons. simpl. rewrite IH. by rewrite andb_assoc.
Qed.

Lemma join_split (s : string) : join_slash (split_on slash s) = s.
Proof.
  induction s as [|a s IH]; [done|].
  destruct (split_on_tokens slash s) as (tok & toks & Hs & _).
  simpl split_on. rewrite Hs in *. destruct (Ascii.eqb a slash) eqn:E.
  - apply Ascii.eqb_eq in E. subst a.
    change (join_slash (EmptyString :: tok :: toks))
      with (String slash (join_slash (tok :: toks))).
    by rewrite IH.
  - destruct toks as [|t2 toks]; simpl in *.
    + by rewrite IH.
    + by rewrite <- IH.
Qed.

Lemma join_head (x : string) (l : list string) :
  join_slash (x :: l) = x +:+ slash_before l.
Proof.
  revert x. induction l as [|y l IH]; intros x.
  - simpl. by rewrite str_app_nil_r.
  - change (join_slash (x :: y :: l)) with (x +:+ "/" +:+ join_slash (y :: l)).
    rewrite IH. simpl slash_before. by rewrite ?str_app_assoc.
Qed.

Lemma join_around (l1 l2 : list string) (x : string) :
  join_slash (l1 ++ x :: l2) = slash_after l1 +:+ x +:+ slash_before l2.
Proof.
  induction l1 as [|y l1 IH].
  - simpl app. simpl slash_after. apply join_head.
  - change ((y :: l1) ++ x :: l2) with (y :: (l1 ++ x :: l2)).
    assert (exists z l', l1 ++ x :: l2 = z :: l') as (z & l' & Hz).
    { destruct l1; simpl; eauto. }
    rewrite Hz. change (join_slash (y :: z :: l'))
      with (y +:+ "/" +:+ join_slash (z :: l')).
    rewrite <- Hz, IH. simpl slash_after. by rewrite ?str_app_assoc.
Qed.

Lemma slash_after_ends (l : list string) :
  l = [] \/ exists pre, slash_after l = pre +:+ "/".
Proof.
  induction l as [|y l IH]; [by left|right].
  destruct IH as [->|[pre Hpre]].
  - exists y. simpl. by rewrite str_app_nil_r.
  - exists (y +:+ "/" +:+ pre). simpl. rewrite Hpre.
    by rewrite ?str_app_assoc.
Qed.

Lemma slash_before_empty (l : list string) :
  Forall (fun x => x = EmptyString) l -> only_slashes (slash_before l) = true.
Proof. induction 1 as [|x l -> _ IH]; [done|]. simpl. exact IH. Qed.

Lemma last_filter_split {A} (P : A -> Prop) `{!forall x, Decision (P x)}
    (l : list A) (x : A) :
  last (filter P l) = Some x ->
  exists l1 l2, l = l1 ++ x :: l2 /\ P x /\ Forall (fun y => ~ P y) l2.
Proof.
  induction l as [|y l IH] using rev_ind; [done|].
  rewrite filter_app, filter_cons, filter_nil.
  destruct (decide (P y)) as [Hy|Hy].
  - rewrite last_snoc. intros [= ->]. exists l, []. by repeat split.
  - rewrite app_nil_r. intros Hl.
    destruct (IH Hl) as (l1 & l2 & -> & Hx & Hl2).
    exists l1, (l2 ++ [y]). rewrite <- app_assoc. repeat split; [done|].
    apply Forall_app. split; [done|]. by constructor.
Qed.

Lemma only_slashes_tokens (s : string) :
  only_slashes s = true ->
  Forall (fun x => x = EmptyString) (split_on slash s).
Proof.
  induction s as [|a s IH]; simpl; intros H.
  - by constructor.
  - apply andb_true_iff in H as [Ha Hs]. specialize (IH Hs).
    destruct (split_on_tokens slash s) as (tok & toks & Hsplit & _).
    rewrite Hsplit in *. rewrite Ha. by constructor.
Qed.

Lemma empty_tokens_only_slashes (s : string) :
  filter (fun x => nonempty x = true) (split_on slash s) = [] ->
  only_slashes s = true.
Proof.
  intros Hf. rewrite <- (join_split s).
  destruct (split_on slash s) as [|tok toks]; [done|].
  rewrite join_head.
  assert (Forall (fun x => x = EmptyString) (tok :: toks)) as Hall.
  { apply Forall_forall. intros x Hx.
    destruct x as [|c x]; [done|]. exfalso.
    eapply (filter_nil_not_elem_of _ _ (String c x) Hf); done. }
  inversion Hall as [|? ? -> Htoks]; subst. simpl.
  by apply slash_before_empty.
Qed.

Lemma filter_nonempty_all_empty (l : list string) :
  Forall (fun x => x = EmptyString) l ->
  filter (fun x => nonempty x = true) l = [].
Proof.
  induction 1 as [|x l -> _ IH]; [done|].
  rewrite filter_cons. simpl. exact IH.
Qed.

(** X13.  On a payload whose [po_url] is a string, the SPO helper never
    throws: it answers [null] for the empty URL, [undefined] for a URL
    made of slashes only, and otherwise the last slash-free run of the
    URL: a non-empty piece without a slash, preceded by nothing or by a
    slash and followed only by slashes. *)
Theorem extractSpo_segment
    (data persdata : JSValue) (url : string) :
  truthy data = true ->
  get_prop data "persdata" = Return persdata ->
  truthy persdata = true ->
  get_prop persdata "po_url" = Return (JStr url) ->
  (url = EmptyString -> extractSpoFromPersonalData data = Return JNull)
  /\ (url <> EmptyString -> only_slashes url = true ->
      extractSpoFromPersonalData data = Return JUndefined)
  /\ (only_slashes url = false ->
      exists pre seg trailing,
        extractSpoFromPersonalData data = Return (JStr seg)
        /\ url = pre +:+ seg +:+ trailing
        /\ seg <> EmptyString
        /\ str_includes "/" seg = false
        /\ only_slashes trailing = true
        /\ (pre = EmptyString \/ exists pre', pre = pre' +:+ "/")).
Proof.
  intros Hd Hp Ht Ho.
  assert (extractSpoFromPersonalData data
          = if truthy (JStr url)
            then Return (last_or_undefined
                           (filter (fun x => nonempty x = true)
                                   (split_on slash url)))
            else Return JNull) as Heq.
  { unfold extractSpoFromPersonalData.
    rewrite Hd. cbn [negb]. rewrite Hp. cbn [bindO]. rewrite Ht. cbn [negb].
    rewrite Ho. cbn [bindO js_split]. by destruct (truthy (JStr url)). }
  rewrite Heq. split; [|split].
  - by intros ->.
  - intros Hne Hs. assert (truthy (JStr url) = true) as ->.
    { by destruct url. }
    pose proof (only_slashes_tokens url Hs) as Hall.
    by rewrite (filter_nonempty_all_empty _ Hall).
  - intros Hs. assert (truthy (JStr url) = true) as ->.
    { by destruct url. }
    unfold last_or_undefined.
    destruct (last _) as [seg|] eqn:El.
    2:{ apply last_None in El. apply empty_tokens_only_slashes in El.
        congruence. }
    destruct (last_filter_split _ _ _ El) as (l1 & l2 & Hsplit & Hseg & Hl2).
    assert (seg ∈ split_on slash url) as Hin by (rewrite Hsplit; set_solver).
    destruct (split_on_token_facts _ _ _ Hin) as [_ Hsep].
    exists (slash_after l1), seg, (slash_before l2).
    split; [done|]. split.
    { rewrite <- (join_split url) at 1. rewrite Hsplit. apply join_around. }
    split; [intros ->; discriminate|]. split; [done|]. split.
    + apply slash_before_empty. eapply Forall_impl; [exact Hl2|].
      intros x Hx. simpl in Hx. destruct x; [done|]. by destruct Hx.
    + destruct (slash_after_ends l1) as [->|Hpre]; [by left|by right].
Qed.

(** ** GraphQL client, sequences of calls *)

Lemma run_query_attempt_log
    {Net : Type} (request : string -> string -> M Net JSValue)
    (env_endpoint : option string) (c : QueryCall) (st : GraphQLState Net) :
  attempts (snd (run_query request env_endpoint c st))
  = attempts st ++ [(GRAPHQL_ENDPOINT env_endpoint, query_of c)].
Proof. by rewrite run_query_performs, performGraphQLQuery_attempt. Qed.

(** X14.  The GraphQL client keeps nothing between calls: after any
    sequence of query calls the attempts are exactly one per call, in call
    order, each against the configured endpoint, whatever succeeded or
    failed before. *)
Theorem graphql_attempts_follow_calls
    {Net : Type} (request : string -> string -> M Net JSValue)
    (env_endpoint : option string) (calls : list QueryCall)
    (st : GraphQLState Net) :
  attempts (run_queries request env_endpoint calls st)
  = attempts st
    ++ map (fun c => (GRAPHQL_ENDPOINT env_endpoint, query_of c)) calls.
Proof.
  revert st. induction calls as [|c calls IH]; intros st; simpl.
  - by rewrite app_nil_r.
  - rewrite IH, run_query_attempt_log.
    by rewrite <- app_assoc.
Qed.

(** ** Meal-plan page, further properties *)

Lemma slice_from_to_end {A} (l : list A) (n : nat) :
  slice (Z.of_nat n) (Some (Z.of_nat (length l))) l = drop n l.
Proof.
  unfold slice, slice_bound.
  rewrite !(proj2 (Z.ltb_ge _ 0)) by lia.
  rewrite Z.min_id.
  destruct (decide (n <= length l)) as [Hle|Hgt].
  - rewrite Z.min_l by lia. rewrite Nat2Z.id.
    rewrite take_ge; [done|]. rewrite length_drop. lia.
  - rewrite Z.min_r by lia. rewrite Nat2Z.id.
    rewrite !drop_ge by lia. by destruct (Z.to_nat _).
Qed.

Lemma slice_first {A} (l : list A) (n : nat) :
  slice 0 (Some (Z.of_nat n)) l = take n l.
Proof.
  unfold slice, slice_bound. rewrite !(proj2 (Z.ltb_ge _ 0)) by lia.
  cbv iota zeta.
  replace (Z.to_nat (Z.min 0 (Z.of_nat (length l)))) with 0%nat by lia.
  replace (Z.to_nat (Z.min (Z.of_nat n) (Z.of_nat (length l))
                     - Z.min 0 (Z.of_nat (length l))))
    with (Nat.min n (length l)) by lia.
  rewrite drop_0. destruct (decide (n <= length l)).
  - by rewrite Nat.min_l by lia.
  - rewrite Nat.min_r by lia. by rewrite !take_ge by lia.
Qed.

(** X15.  A successful load splits the delivered days into the two weeks
    without losing or repeating a day: the current week is the first five
    days (all of them when there are fewer), the next week is the rest, in
    order. *)
Theorem Mensa_load_splits_days
    (days : list FoodDay) (adjustedWeekday : Z) (s : MensaState) :
  exists current future,
    currentFoodDays (Mensa_load (Return days) adjustedWeekday s) = Some current
    /\ futureFoodDays (Mensa_load (Return days) adjustedWeekday s) = Some future
    /\ current ++ future = days
    /\ length current = Nat.min 5 (length days)
    /\ current = take 5 days.
Proof.
  exists (take 5 days), (drop 5 days).
  unfold Mensa_load. cbn [currentFoodDays futureFoodDays].
  change 5%Z with (Z.of_nat 5).
  rewrite (slice_first days 5), (slice_from_to_end days 5).
  repeat split; try done.
  - apply take_drop.
  - apply length_take.
Qed.

Section MealEntryFacts.

Variable containsSelectedAllergen : JSValue -> JSValue -> JSValue.
Variable containsSelectedPreference : JSValue -> JSValue -> JSValue.
Variables allergenSelection preferencesSelection : JSValue.
Variable t : string -> string.

Local Abbreviation mealBadges' :=
  (mealBadges containsSelectedAllergen containsSelectedPreference
              allergenSelection preferencesSelection t).

(** X16.  A meal entry shows the allergen warning exactly when a selected
    allergen is contained, the preference badge exactly when no selected
    allergen is contained and a preference matches, never both, and the
    line break exactly when one of the two badges is shown. *)
Theorem meal_badges_exclusive (meal : Meal) :
  existsb is_warn (mealBadges' meal)
  = truthy (containsSelectedAllergen (allergens meal) allergenSelection)
  /\ existsb is_match (mealBadges' meal)
     = negb (truthy (containsSelectedAllergen (allergens meal)
                                              allergenSelection))
       && truthy (containsSelectedPreference (flags meal)
                                             preferencesSelection)
  /\ existsb is_line_break (mealBadges' meal)
     = existsb is_badge (mealBadges' meal)
  /\ badge_count (mealBadges' meal) <= 1.
Proof.
  unfold mealBadges, showMatch, js_or, js_and, js_not, badge_count, jsx_and.
  destruct (containsSelectedAllergen _ _) as [| |[|]|n|s|?|?] eqn:EA;
    destruct (containsSelectedPreference _ _) as [| |[|]|p|s'|?|?] eqn:EP;
    cbn [truthy negb];
    try (destruct (n =? 0)%Z eqn:En); try (destruct (p =? 0)%Z eqn:Ep);
    try (destruct (String.eqb s EmptyString) eqn:Es);
    try (destruct (String.eqb s' EmptyString) eqn:Es');
    cbn [truthy negb]; rewrite ?En, ?Ep, ?Es, ?Es'; cbn;
    rewrite ?En, ?Ep, ?Es, ?Es'; cbn; repeat split; lia.
Qed.

End MealEntryFacts.

(** ** Day view, further properties *)

Lemma concat_filter_has_items_length {A} (L : list (list A)) :
  length (concat (filter (fun l => has_items l = true) L))
  = length (concat L).
Proof.
  induction L as [|l L IH]; [done|].
  rewrite filter_has_items_cons. simpl concat. rewrite concat_app, !length_app.
  rewrite IH. destruct l; simpl; rewrite ?app_nil_r; done.
Qed.

Lemma elem_of_concat_filter_has_items {A} (L : list (list A)) (x : A) :
  x ∈ concat (filter (fun l => has_items l = true) L) <-> x ∈ concat L.
Proof.
  induction L as [|l L IH]; [done|].
  rewrite filter_has_items_cons. simpl concat.
  rewrite concat_app, !elem_of_app, IH.
  destruct l as [|a l]; simpl; [|by rewrite app_nil_r].
  split; [intros [H|H]|intros [H|H]]; try by right.
  all: by apply elem_of_nil in H.
Qed.

Lemma listed_iff_selected (m : Meal) :
  listed m = true <->
  exists s, s ∈ selectors
            /\ selects (fst (fst s)) (snd (fst s)) (snd s) m = true.
Proof.
  unfold listed, is_restaurant, category_includes, selects, selectors. split.
  - rewrite !orb_true_iff, andb_true_iff, negb_true_iff.
    intros [[[H|[H Hn]]|H]|H].
    + exists ("IngolstadtMensa", "soup", str_includes "soup" (category m)).
      simpl. rewrite H, Bool.eqb_reflx. split; [|done].
      destruct (str_includes _ _); set_solver.
    + exists ("NeuburgMensa", "soup", false).
      simpl. rewrite H, Hn. split; [set_solver|done].
    + exists ("Reimanns", "salad", str_includes "salad" (category m)).
      simpl. rewrite H, Bool.eqb_reflx. split; [|done].
      destruct (str_includes _ _); set_solver.
    + exists ("Canisius", "salad", str_includes "salad" (category m)).
      simpl. rewrite H, Bool.eqb_reflx. split; [|done].
      destruct (str_includes _ _); set_solver.
  - intros (s & Hs & Hsel).
    repeat (apply elem_of_cons in Hs as [->|Hs]);
      [..|by apply elem_of_nil in Hs];
      simpl in Hsel; apply andb_true_iff in Hsel as [Hr Hc];
      apply String.eqb_eq in Hr; rewrite Hr; simpl; try done.
    apply Bool.eqb_prop in Hc. by rewrite Hc.
Qed.

Lemma elem_of_sublists (day : FoodDay) (m : Meal) :
  m ∈ concat (sublists day) <-> m ∈ meals day /\ listed m = true.
Proof.
  rewrite listed_iff_selected, list_elem_of_In, in_concat. unfold sublists.
  split.
  - intros (l & Hl & Hm). apply in_map_iff in Hl as (s & <- & Hs).
    apply list_elem_of_In in Hm. unfold sublist_of in Hm.
    apply list_elem_of_filter in Hm as [Hsel Hm]. split; [done|].
    exists s. split; [by apply list_elem_of_In|done].
  - intros (Hm & s & Hs & Hsel).
    exists (sublist_of (fst (fst s)) (snd (fst s)) (snd s) day). split.
    + apply in_map_iff. exists s. split; [done|by apply list_elem_of_In].
    + apply list_elem_of_In. unfold sublist_of.
      apply list_elem_of_filter. done.
Qed.

(** The sub-lists of the day view, free of the page's other inputs. *)
Lemma rendered_lists_of_day (t : string -> string) (day : FoodDay) :
  rendered_lists (renderMealDay t day)
  = filter (fun l => has_items l = true) (sublists day).
Proof.
  exact (rendered_lists_renderMealDay
           (fun _ _ => JNull) (fun _ _ => JNull) JNull t day).
Qed.

(** X17.  The day view renders exactly the meals of the day that have a
    sub-list: those of the Ingolstadt cafeteria, of Reimanns and of
    Canisius, and those of the Neuburg cafeteria whose category does not
    contain ['soup']. *)
Theorem rendered_meals_are_the_listed_ones
    (t : string -> string) (day : FoodDay) (m : Meal) :
  m ∈ concat (rendered_lists (renderMealDay t day)) <->
  m ∈ meals day /\ listed m = true.
Proof.
  rewrite rendered_lists_of_day, elem_of_concat_filter_has_items.
  exact (elem_of_sublists day m).
Qed.

Lemma placements_listed (m : Meal) :
  placements m = if listed m then 1 else 0.
Proof.
  destruct (decide (restaurant m = "IngolstadtMensa")) as [H|H1].
  { rewrite placements_one by eauto.
    unfold listed, is_restaurant. by rewrite H. }
  destruct (decide (restaurant m = "Reimanns")) as [H|H2].
  { rewrite placements_one by eauto.
    unfold listed, is_restaurant. by rewrite H. }
  destruct (decide (restaurant m = "Canisius")) as [H|H3].
  { rewrite placements_one by eauto.
    unfold listed, is_restaurant. by rewrite H. }
  destruct (decide (restaurant m = "NeuburgMensa")) as [H|H4].
  { rewrite placements_neuburg by done.
    unfold listed, is_restaurant, category_includes. rewrite H. simpl.
    by destruct (str_includes "soup" (category m)). }
  rewrite placements_other.
  - unfold listed, is_restaurant.
    rewrite (proj2 (String.eqb_neq _ _) H1), (proj2 (String.eqb_neq _ _) H2),
      (proj2 (String.eqb_neq _ _) H3), (proj2 (String.eqb_neq _ _) H4).
    done.
  - unfold four_restaurants. rewrite !not_elem_of_cons.
    repeat split; try done. apply not_elem_of_nil.
Qed.

Lemma length_filter_bool {A} (f : A -> bool) (x : A) (l : list A) :
  length (filter (fun y => f y = true) (x :: l))
  = (if f x then 1 else 0) + length (filter (fun y => f y = true) l).
Proof. rewrite filter_cons. by destruct (f x). Qed.

Lemma list_sum_indicator {A} (f : A -> bool) (L : list A) :
  list_sum (map (fun s => if f s then 1 else 0) L)
  = length (filter (fun s => f s = true) L).
Proof.
  induction L as [|s L IH]; [done|].
  rewrite length_filter_bool. simpl. by rewrite IH.
Qed.

Lemma list_sum_map_add {A} (g h : A -> nat) (L : list A) :
  list_sum (map (fun s => g s + h s) L)
  = list_sum (map g L) + list_sum (map h L).
Proof. induction L as [|s L IH]; simpl; [done|]. rewrite IH. lia. Qed.

Lemma sublists_total_length (l : list Meal) :
  list_sum
    (map (fun s => length (filter
                     (fun m => selects (fst (fst s)) (snd (fst s)) (snd s) m
                               = true) l))
         selectors)
  = length (filter (fun m => listed m = true) l).
Proof.
  induction l as [|m l IH].
  - rewrite filter_nil. unfold selectors. simpl. done.
  - rewrite length_filter_bool, <- IH, <- placements_listed.
    unfold placements. rewrite <- list_sum_indicator, <- list_sum_map_add.
    f_equal. apply map_ext. intros s. apply length_filter_bool.
Qed.

(** X18.  The day view neither repeats nor loses a meal: the rendered
    sub-lists together hold as many entries as the day has meals with a
    sub-list. *)
Theorem rendered_meals_count (t : string -> string) (day : FoodDay) :
  length (concat (rendered_lists (renderMealDay t day)))
  = length (filter (fun m => listed m = true) (meals day)).
Proof.
  rewrite rendered_lists_of_day, concat_filter_has_items_length.
  rewrite length_concat. unfold sublists. rewrite map_map.
  apply sublists_total_length.
Qed.

(** X19.  No empty list is rendered, and every rendered sub-list keeps
    the order in which the day lists its meals. *)
Theorem rendered_lists_nonempty_in_order
    (t : string -> string) (day : FoodDay) (l : list Meal) :
  l ∈ rendered_lists (renderMealDay t day) ->
  l <> [] /\ l `sublist_of` meals day.
Proof.
  rewrite rendered_lists_of_day. intros Hl.
  apply list_elem_of_filter in Hl as [Hne Hl]. split.
  - intros ->. discriminate.
  - unfold sublists in Hl. apply list_elem_of_In, in_map_iff in Hl
      as (s & <- & _).
    apply sublist_filter.
Qed.

(** X20.  The no-data message is shown exactly when the day has no meal of
    any of the four restaurants; in particular a day with meals of other
    restaurants only shows the message and nothing else. *)
Theorem no_data_iff_no_known_restaurant
    (t : string -> string) (day : FoodDay) :
  (shows_no_data (renderMealDay t day) = true <->
   forall m, m ∈ meals day -> restaurant m ∉ four_restaurants)
  /\ ((forall m, m ∈ meals day -> restaurant m ∉ four_restaurants) ->
      renderMealDay t day = [NoMealInfo (t "error.dataUnavailable")]).
Proof.
  split.
  - exact (shows_no_data_renderMealDay
             (fun _ _ => JNull) (fun _ _ => JNull) JNull t day).
  - intros H. unfold renderMealDay.
    assert (forall r, r ∈ four_restaurants ->
              filter (fun x => is_restaurant r x = true) (meals day) = [])
      as Hempty.
    { intros r Hr. destruct (filter _ (meals day)) as [|m l] eqn:E; [done|].
      assert (m ∈ filter (fun x => is_restaurant r x = true) (meals day))
        as Hm by (rewrite E; left).
      apply list_elem_of_filter in Hm as [Hres Hm].
      unfold is_restaurant in Hres. apply String.eqb_eq in Hres.
      destruct (H m Hm). by rewrite Hres. }
    rewrite !Hempty by (unfold four_restaurants; set_solver).
    reflexivity.
Qed.

Lemma index_key_inj (i j : nat) : index_key i = index_key j -> i = j.
Proof.
  unfold index_key. intros H.
  apply (f_equal NilEmpty.uint_of_string) in H.
  rewrite !NilEmpty.usu in H. injection H as H.
  apply (f_equal Nat.of_uint) in H. by rewrite !Unsigned.of_to in H.
Qed.

Lemma keys_of_imap (key : nat -> string) (l : list Meal) (x : string) :
  x ∈ map snd (imap (fun idx meal => (meal, key idx)) l) ->
  exists i, x = key i.
Proof.
  revert key. induction l as [|m l IH]; intros key; simpl; intros H.
  - by apply elem_of_nil in H.
  - apply elem_of_cons in H as [->|H]; [eauto|].
    destruct (IH (key ∘ S) H) as [i ->]. by exists (S i).
Qed.

Lemma keys_NoDup (key : nat -> string) (l : list Meal) :
  (forall i j, key i = key j -> i = j) ->
  NoDup (map snd (imap (fun idx meal => (meal, key idx)) l)).
Proof.
  revert key. induction l as [|m l IH]; intros key Hinj; simpl.
  - constructor.
  - constructor.
    + intros H. destruct (keys_of_imap (key ∘ S) l _ H) as [i Hi].
      simpl in Hi. by apply Hinj in Hi.
    + apply (IH (key ∘ S)). intros i j Hij. simpl in Hij.
      apply Hinj in Hij. lia.
Qed.

Lemma keyed_NoDup (prefix : string) (l : list Meal) :
  NoDup (map snd (keyed prefix l)).
Proof.
  unfold keyed. apply (keys_NoDup (fun idx => prefix +:+ index_key idx)).
  intros i j H. apply (inj (String.app prefix)) in H. by apply index_key_inj.
Qed.

Lemma when_keyed_NoDup (c : bool) (h p : string) (l : list Meal) ml :
  ml ∈ when c (mkMealList h (keyed p l)) -> NoDup (map snd (entries ml)).
Proof.
  destruct c; simpl; intros H; [|by apply elem_of_nil in H].
  apply list_elem_of_singleton in H. subst ml. apply keyed_NoDup.
Qed.

(** X21.  Within every rendered sub-list the entry keys are pairwise
    distinct. *)
Theorem rendered_keys_distinct
    (t : string -> string) (day : FoodDay) (b : DayBlock) (ml : MealList) :
  b ∈ renderMealDay t day -> ml ∈ block_meal_lists b ->
  NoDup (map snd (entries ml)).
Proof.
  unfold renderMealDay. rewrite !elem_of_app.
  intros [Hb|[Hb|[Hb|[Hb|Hb]]]] Hml;
    match type of Hb with
    | b ∈ when ?c _ =>
        destruct c; simpl in Hb; [|by apply elem_of_nil in Hb];
        apply list_elem_of_singleton in Hb; subst b; simpl in Hml
    end;
    rewrite ?elem_of_app in Hml;
    try (by apply elem_of_nil in Hml);
    repeat match type of Hml with
           | _ \/ _ => destruct Hml as [Hml|Hml]
           end;
    by apply when_keyed_NoDup in Hml.
Qed.

(** *** Runs of the further properties *)

Lemma no_request_no_change_witness :
  authLog (snd (run_op scripted_request direct_session sample_table
                  a_monday_toDateString a_monday_getDate a_monday_getMonth
                  a_monday_getFullYear OpGetExams cached_exams))
  = authLog cached_exams
  /\ snd (run_op scripted_request direct_session sample_table
            a_monday_toDateString a_monday_getDate a_monday_getMonth
            a_monday_getFullYear OpGetExams cached_exams)
     = cached_exams.
Proof.
  split; [reflexivity|].
  apply (no_request_no_change scripted_request direct_session sample_table
           a_monday_toDateString a_monday_getDate a_monday_getMonth
           a_monday_getFullYear OpGetExams cached_exams).
  reflexivity.
Defined.

Lemma operation_writes_only_its_key_witness :
  method_key a_monday_toDateString OpGetGrades <> Some KEY_GET_EXAMS
  /\ cache (snd (run_op scripted_request direct_session sample_table
                   a_monday_toDateString a_monday_getDate a_monday_getMonth
                   a_monday_getFullYear OpGetGrades cached_exams))
       !! KEY_GET_EXAMS
     = cache cached_exams !! KEY_GET_EXAMS.
Proof.
  split; [discriminate|].
  apply (operation_writes_only_its_key scripted_request direct_session
           sample_table a_monday_toDateString a_monday_getDate
           a_monday_getMonth a_monday_getFullYear OpGetGrades cached_exams).
  discriminate.
Defined.

Lemma method_keys_disjoint_witness :
  method_key a_monday_toDateString (@OpGetFaculty unit)
  = Some "getPersonalData"
  /\ method_key a_monday_toDateString (@OpGetSpoName unit)
     = Some "getPersonalData"
  /\ (method_name (@OpGetFaculty unit) = method_name (@OpGetSpoName unit)
      \/ (reads_personal_data (@OpGetFaculty unit) = true
          /\ reads_personal_data (@OpGetSpoName unit) = true)).
Proof.
  split; [reflexivity|]. split; [reflexivity|].
  apply (method_keys_disjoint a_monday_toDateString
           OpGetFaculty OpGetSpoName "getPersonalData");
    reflexivity.
Defined.

(** Methods with keys of their own: the exams and the grades. *)
Example exams_and_grades_keys_differ :
  method_key a_monday_toDateString (@OpGetExams unit)
  <> method_key a_monday_toDateString (@OpGetGrades unit).
Proof. discriminate. Qed.

Lemma timetable_key_injective_witness :
  timetable_key a_monday_toDateString tt true
  = timetable_key a_monday_toDateString tt true
  /\ a_monday_toDateString tt = a_monday_toDateString tt /\ true = true.
Proof.
  split; [reflexivity|].
  apply (timetable_key_injective a_monday_toDateString tt tt true true).
  reflexivity.
Defined.

Lemma lecturers_key_injective_witness :
  String.length "a" = 1
  /\ ("a" = "a" /\ "m" = "m").
Proof.
  split; [reflexivity|].
  apply (lecturers_key_injective "a" "m" "a" "m"); reflexivity.
Defined.

(** Ranges of more than one character can share a key. *)
Example lecturers_key_collision :
  KEY_GET_LECTURERS +:+ "-" +:+ "a-b" +:+ "-" +:+ "c"
  = KEY_GET_LECTURERS +:+ "-" +:+ "a" +:+ "-" +:+ "b-c".
Proof. reflexivity. Qed.

Lemma getTimetable_returns_timetable_witness :
  getTimetable scripted_request direct_session
    a_monday_toDateString a_monday_getDate a_monday_getMonth
    a_monday_getFullYear tt false
    (fresh_client [ok_response (JArr [JStr "WS 2026"; JArr []; JArr []])])
  = (Return (JObj [("semester", JStr "WS 2026"); ("holidays", JArr []);
                   ("timetable", JArr [])]),
     snd (getTimetable scripted_request direct_session
            a_monday_toDateString a_monday_getDate a_monday_getMonth
            a_monday_getFullYear tt false
            (fresh_client
               [ok_response (JArr [JStr "WS 2026"; JArr []; JArr []])])))
  /\ exists props,
       JObj [("semester", JStr "WS 2026"); ("holidays", JArr []);
             ("timetable", JArr [])] = JObj props
       /\ "timetable" ∈ map fst props.
Proof.
  split; [vm_compute; reflexivity|].
  eapply (getTimetable_returns_timetable scripted_request direct_session
            a_monday_toDateString a_monday_getDate a_monday_getMonth
            a_monday_getFullYear tt false
            (fresh_client
               [ok_response (JArr [JStr "WS 2026"; JArr []; JArr []])])).
  vm_compute. reflexivity.
Defined.


Lemma extractFaculty_needs_string_po_url_witness :
  truthy (JStr "INF") || truthy (JNum 5) = true
  /\ extractFacultyFromPersonalData sample_table
       (personal_data (JStr "INF") (JNum 5))
     = Throw TypeError.
Proof.
  split; [reflexivity|].
  apply (extractFaculty_needs_string_po_url sample_table
           (personal_data (JStr "INF") (JNum 5))
           (JObj [("stg", JStr "INF"); ("po_url", JNum 5)])
           (JStr "INF") (JNum 5));
    try reflexivity.
  intros url. discriminate.
Defined.

Lemma po_url_match_wins_witness :
  po_key_of "https://www.thi.de/spo/maschinenbau/mb/2020/"
  = JStr "maschinenbau"
  /\ exists F' cs',
       table_get sample_table F' = Some (Faculty "maschinenbau" cs')
       /\ F' ∈ map fst sample_table
       /\ forall stg,
            extractFacultyFromPersonalData sample_table
              (personal_data stg
                 (JStr "https://www.thi.de/spo/maschinenbau/mb/2020/"))
            = Return (JStr F').
Proof.
  split; [reflexivity|].
  apply (po_url_match_wins sample_table
           "https://www.thi.de/spo/maschinenbau/mb/2020/"
           "maschinenbau" "Maschinenbau" ["MB"]).
  - intros k v Hin Hk. unfold sample_table in Hin.
    repeat (apply elem_of_cons in Hin as [Hin|Hin]);
      [injection Hin as -> ->; done
      |injection Hin as -> ->; eauto
      |injection Hin as -> ->; eauto
      |by apply elem_of_nil in Hin].
  - unfold sample_table. simpl. rewrite !not_elem_of_cons.
    repeat split; try discriminate. apply not_elem_of_nil.
  - reflexivity.
  - unfold sample_table. simpl. do 2 right. left.
  - discriminate.
  - reflexivity.
Defined.

Lemma extractSpo_segment_witness :
  get_prop (JObj [("po_url", JStr "https://www.thi.de/spo/inf/2020/")])
           "po_url"
  = Return (JStr "https://www.thi.de/spo/inf/2020/")
  /\ only_slashes "https://www.thi.de/spo/inf/2020/" = false
  /\ exists pre seg trailing,
       extractSpoFromPersonalData
         (JObj [("persdata",
                 JObj [("po_url", JStr "https://www.thi.de/spo/inf/2020/")])])
       = Return (JStr seg)
       /\ "https://www.thi.de/spo/inf/2020/" = pre +:+ seg +:+ trailing
       /\ seg <> EmptyString
       /\ str_includes "/" seg = false
       /\ only_slashes trailing = true
       /\ (pre = EmptyString \/ exists pre', pre = pre' +:+ "/").
Proof.
  split; [reflexivity|]. split; [reflexivity|].
  apply (extractSpo_segment
           (JObj [("persdata",
                   JObj [("po_url", JStr "https://www.thi.de/spo/inf/2020/")])])
           (JObj [("po_url", JStr "https://www.thi.de/spo/inf/2020/")])
           "https://www.thi.de/spo/inf/2020/");
    reflexivity.
Defined.

Example extractSpo_slashes_only :
  extractSpoFromPersonalData
    (JObj [("persdata", JObj [("po_url", JStr "//")])])
  = Return JUndefined.
Proof. reflexivity. Qed.

Lemma rendered_lists_nonempty_in_order_witness :
  [mkMeal "1" "Reimanns" "salad" (JArr []) (JArr [])]
    ∈ rendered_lists
        (renderMealDay (fun key => key)
           (mkFoodDay "2026-11-02"
              [mkMeal "0" "Cafeteria" "main" (JArr []) (JArr []);
               mkMeal "1" "Reimanns" "salad" (JArr []) (JArr [])]))
  /\ [mkMeal "1" "Reimanns" "salad" (JArr []) (JArr [])]
       `sublist_of` [mkMeal "0" "Cafeteria" "main" (JArr []) (JArr []);
                     mkMeal "1" "Reimanns" "salad" (JArr []) (JArr [])].
Proof.
  assert ([mkMeal "1" "Reimanns" "salad" (JArr []) (JArr [])]
            ∈ rendered_lists
                (renderMealDay (fun key => key)
                   (mkFoodDay "2026-11-02"
                      [mkMeal "0" "Cafeteria" "main" (JArr []) (JArr []);
                       mkMeal "1" "Reimanns" "salad" (JArr []) (JArr [])])))
    as H by (vm_compute; left).
  split; [exact H|].
  apply (rendered_lists_nonempty_in_order _ _ _ H).
Defined.

Lemma no_data_iff_no_known_restaurant_witness :
  (forall m, m ∈ meals other_restaurant_day ->
             restaurant m ∉ four_restaurants)
  /\ renderMealDay (fun key => key) other_restaurant_day
     = [NoMealInfo "error.dataUnavailable"].
Proof.
  assert (forall m, m ∈ meals other_restaurant_day ->
                    restaurant m ∉ four_restaurants) as H.
  { intros m Hm. apply list_elem_of_singleton in Hm. subst m.
    unfold four_restaurants. simpl. rewrite !not_elem_of_cons.
    repeat split; try discriminate. apply not_elem_of_nil. }
  split; [exact H|].
  apply (no_data_iff_no_known_restaurant (fun key => key)
           other_restaurant_day). exact H.
Defined.

Lemma rendered_keys_distinct_witness :
  RestaurantBlock "Reimanns"
    [mkMealList "list.titles.salads"
       [(mkMeal "1" "Reimanns" "salad" (JArr []) (JArr []),
         "reimanns-salad-0")]]
    ∈ renderMealDay (fun key => key)
        (mkFoodDay "2026-11-02"
           [mkMeal "1" "Reimanns" "salad" (JArr []) (JArr [])])
  /\ NoDup ["reimanns-salad-0"].
Proof.
  assert (RestaurantBlock "Reimanns"
            [mkMealList "list.titles.salads"
               [(mkMeal "1" "Reimanns" "salad" (JArr []) (JArr []),
                 "reimanns-salad-0")]]
            ∈ renderMealDay (fun key => key)
                (mkFoodDay "2026-11-02"
                   [mkMeal "1" "Reimanns" "salad" (JArr []) (JArr [])]))
    as H by (vm_compute; left).
  split; [exact H|].
  apply (rendered_keys_distinct _ _ _
           (mkMealList "list.titles.salads"
              [(mkMeal "1" "Reimanns" "salad" (JArr []) (JArr []),
                "reimanns-salad-0")]) H).
  simpl. left.
Defined.
